(** * PDFViewer: template fields and batch stamping

    A shallow embedding of [src/components/PDFViewer.tsx]: the component
    state, its event handlers ([onDrop], [handleCSVUpload],
    [handleTemplateFieldAdd], [generatePDFs]) and the parts of the
    JavaScript run time and of the PDF library those handlers rely on. *)

From Stdlib Require Import ZArith QArith Qpower Lqa Lia PrimFloat Uint63 Ascii String.
From Stdlib Require Import FloatOps FloatAxioms SpecFloat.
From stdpp Require Import base list.

Local Open Scope string_scope.
Local Open Scope list_scope.

(** ** Numbers

    A JavaScript number is an IEEE-754 double.  The handlers add,
    subtract, multiply and divide numbers, and the PDF library tests
    them for [NaN], so they are written once over the interface
    [JsNumber].  [binary64] is the program: it computes bit for bit what
    the engine computes.  [rational] reads the same expressions in the
    rationals, without rounding and without [NaN] (a division by zero,
    which the rationals answer with 0, does not arise for a box or a page
    of positive size); it says what the formulas mean, not what the
    engine returns. *)

Class JsNumber (num : Type) : Type := {
  nadd : num -> num -> num;
  nsub : num -> num -> num;
  nmul : num -> num -> num;
  ndiv : num -> num -> num;
  lit : Z -> num;
  isNaN : num -> bool
}.

Declare Scope jsnum_scope.
Delimit Scope jsnum_scope with js.
Infix "+^" := nadd (at level 50, left associativity) : jsnum_scope.
Infix "-^" := nsub (at level 50, left associativity) : jsnum_scope.
Infix "*^" := nmul (at level 40, left associativity) : jsnum_scope.
Infix "/^" := ndiv (at level 40, left associativity) : jsnum_scope.

Definition float_of_Z (z : Z) : float :=
  match z with
  | Z0 => PrimFloat.zero
  | Zpos _ => PrimFloat.of_uint63 (Uint63.of_Z z)
  | Zneg p => PrimFloat.opp (PrimFloat.of_uint63 (Uint63.of_Z (Zpos p)))
  end.

#[export] Instance binary64 : JsNumber float := {
  nadd := PrimFloat.add;
  nsub := PrimFloat.sub;
  nmul := PrimFloat.mul;
  ndiv := PrimFloat.div;
  lit := float_of_Z;
  isNaN := PrimFloat.is_nan
}.

#[export] Instance rational : JsNumber Q := {
  nadd := Qplus;
  nsub := Qminus;
  nmul := Qmult;
  ndiv := Qdiv;
  lit := inject_Z;
  isNaN := fun _ => false
}.

(** ** Doubles as exact numbers

    What the engine computes with doubles is related to the numbers the
    doubles stand for through the specification of binary64 that comes
    with the primitive floats: a double is a zero, an infinity, [NaN],
    or [(-1)^s * m * 2^e]. *)

Module Binary64.

Local Open Scope Q_scope.

(** [2 ^ e], for an exponent of either sign. *)
Definition bpow (e : Z) : Q := 2 ^ e.

(** The number [m * 2 ^ e]. *)
Definition dyadic (m e : Z) : Q := inject_Z m * bpow e.

(** The number a double stands for; 0 for the infinities and [NaN]. *)
Definition SF2Q (f : spec_float) : Q :=
  match f with
  | S754_finite s m e => if s then - dyadic (Zpos m) e else dyadic (Zpos m) e
  | _ => 0
  end.

Definition SFfinite (f : spec_float) : bool :=
  match f with
  | S754_zero _ | S754_finite _ _ _ => true
  | _ => false
  end.

(** The number a primitive double stands for. *)
Definition F2Q (x : float) : Q := SF2Q (Prim2SF x).

(** [f] is a zero, or a positive double not above [B]. *)
Definition Below (B : Q) (f : spec_float) : Prop :=
  (exists s, f = S754_zero s) \/
  (exists m e, f = S754_finite false m e /\ dyadic (Zpos m) e <= B).

(** [mrs], read at exponent [e], locates [r]: its mantissa is the floor
    of [r / 2^e], and its two bits are clear when [r] is that multiple
    of [2^e]. *)
Definition Locates (mrs : shr_record) (e : Z) (r : Q) : Prop :=
  (0 <= shr_m mrs)%Z /\
  dyadic (shr_m mrs) e <= r /\ r < dyadic (shr_m mrs + 1) e /\
  (r == dyadic (shr_m mrs) e -> shr_r mrs = false /\ shr_s mrs = false).

End Binary64.

(** ** JavaScript values and objects *)

Module Js.

(** The values a cell of a parsed row, or a property read on a row, can
    be.  Parsed cells are strings ([JString]); a row with more cells than
    the header has keeps the surplus in an array ([JArray]); the other
    constructors are what a read of a missing or inherited property
    gives, and the primitive falsy values.  Numbers do not occur: the
    parser is run with [header: true] only, without dynamic typing. *)
Inductive Value : Type :=
  | JUndefined
  | JNull
  | JBool (b : bool)
  | JString (s : string)
  | JArray (items : list string)
  | JFunction (name : string)
  | JPlainObject.

(** ToBoolean. *)
Definition truthy (v : Value) : bool :=
  match v with
  | JUndefined | JNull => false
  | JBool b => b
  | JString s => negb (String.eqb s "")
  | JArray _ | JFunction _ | JPlainObject => true
  end.

(** [a || b]. *)
Definition or (a b : Value) : Value := if truthy a then a else b.

(** ToString, as a template literal applies it. *)
Definition ToString (v : Value) : string :=
  match v with
  | JUndefined => "undefined"
  | JNull => "null"
  | JBool true => "true"
  | JBool false => "false"
  | JString s => s
  | JArray items => String.concat "," items
  | JFunction name => "function " ++ name ++ "() { [native code] }"
  | JPlainObject => "[object Object]"
  end.

(** An ordinary object, as the property table its creation left: the own
    enumerable string-keyed properties, oldest first. *)
Definition Object : Type := list (string * Value).

Definition digit (c : ascii) : option N :=
  let n := N_of_ascii c in
  if ((48 <=? n) && (n <=? 57))%N then Some (n - 48)%N else None.

Fixpoint digits (s : string) (acc : N) : option N :=
  match s with
  | EmptyString => Some acc
  | String c rest =>
      match digit c with
      | Some d => digits rest (10 * acc + d)%N
      | None => None
      end
  end.

(** A property key is an array index when it is the canonical decimal
    form of an integer below 2^32 - 1. *)
Definition arrayIndex (key : string) : option N :=
  match key with
  | EmptyString => None
  | String "0" EmptyString => Some 0%N
  | String "0" _ => None
  | _ =>
      match digits key 0 with
      | Some n => if (n <? 4294967295)%N then Some n else None
      | None => None
      end
  end.

Definition isArrayIndex (key : string) : bool :=
  match arrayIndex key with Some _ => true | None => false end.

Fixpoint insertIndex (n : N) (key : string) (sorted : list (N * string))
  : list (N * string) :=
  match sorted with
  | [] => [(n, key)]
  | (m, k) :: rest =>
      if (n <? m)%N then (n, key) :: sorted else (m, k) :: insertIndex n key rest
  end.

Fixpoint indexKeys (keys : list string) : list (N * string) :=
  match keys with
  | [] => []
  | key :: rest =>
      match arrayIndex key with
      | Some n => insertIndex n key (indexKeys rest)
      | None => indexKeys rest
      end
  end.

(** [Object.keys(o)]: the array-index keys in ascending numeric order,
    then the other keys in creation order. *)
Definition keys (o : Object) : list string :=
  let created := map fst o in
  map snd (indexKeys created)
    ++ List.filter (fun k => negb (isArrayIndex k)) created.

Fixpoint getOwn (o : Object) (key : string) : option Value :=
  match o with
  | [] => None
  | (k, v) :: rest => if String.eqb k key then Some v else getOwn rest key
  end.

(** What a read finds on [Object.prototype], the prototype of every
    object literal. *)
Definition objectPrototype (key : string) : Value :=
  if String.eqb key "constructor" then JFunction "Object"
  else if String.eqb key "__proto__" then JPlainObject
  else if existsb (String.eqb key)
            ["hasOwnProperty"; "isPrototypeOf"; "propertyIsEnumerable";
             "toLocaleString"; "toString"; "valueOf";
             "__defineGetter__"; "__defineSetter__";
             "__lookupGetter__"; "__lookupSetter__"]
       then JFunction key
  else JUndefined.

(** [o[key]]: the own property, else the inherited one, else
    [undefined]. *)
Definition get (o : Object) (key : string) : Value :=
  match getOwn o key with
  | Some v => v
  | None => objectPrototype key
  end.

(** [o[k]] for a [k] that may be [undefined] (an index past the end of an
    array): the key is then the string ["undefined"]. *)
Definition getAt (o : Object) (k : option string) : Value :=
  get o (match k with Some key => key | None => "undefined" end).

End Js.

(** ** The PDF library

    Modelled from the spec: the document model the handlers call is an
    external collaborator, of which the specification says that it loads
    bytes, enumerates pages, embeds a font, draws text at a coordinate and
    serialises back to bytes, and that each of these may raise an
    exception.  It is modelled by what the calls do to a document:
    [PDFDocument.load] parses a byte buffer into a new document object,
    [embedFont] adds a font to a document, [drawText] appends a text
    operation to a page, [save] serialises a document.  What the parser
    accepts, which fonts can be embedded, which characters a font encodes
    and how a document is serialised are left to the record [PdfLib].
    A document is its pages, the text on them and its fonts; the dates
    and the producer the library writes into a file are not part of it,
    so nothing is said below about the bytes of two files being equal. *)

Definition Bytes : Type := list Byte.byte.

Inductive StandardFonts : Type := Helvetica | TimesRoman | Courier.

Section Documents.
Context {num : Type}.

Record TextOp : Type := {
  op_text : string;
  op_x : num;
  op_y : num;
  op_size : num;
  op_font : StandardFonts;
  op_color : num * num * num
}.

Record PDFPage : Type := {
  page_width : num;
  page_height : num;
  page_content : list TextOp
}.

Record PDFDocument : Type := {
  doc_pages : list PDFPage;
  doc_fonts : list StandardFonts
}.

Record PdfLib : Type := {
  pdf_parse : Bytes -> option (list PDFPage);
  font_available : StandardFonts -> bool;
  font_encodes : ascii -> bool;
  pdf_serialize : PDFDocument -> option Bytes
}.

End Documents.

Arguments TextOp : clear implicits.
Arguments PDFPage : clear implicits.
Arguments PDFDocument : clear implicits.
Arguments PdfLib : clear implicits.

(** ** The browser and the effects of a handler *)

Inductive Exn : Type :=
  | ParseError
  | FontError (font : StandardFonts)
  | EncodingError (text : string)
  | SaveError
  | TypeError (message : string).

(** Object URLs are numbered in the order [URL.createObjectURL] hands
    them out. *)
Definition ObjectURL : Type := nat.

Section Effects.
Context {num : Type}.

(** What a handler can reach outside the component state: the document
    objects [PDFDocument.load] has created (a reference is an index in
    [heap]), the blobs behind the object URLs ([None] once revoked), and
    what the user has been handed or shown. *)
Record World : Type := {
  heap : list (PDFDocument num);
  blobs : list (option Bytes);
  downloads : list (string * Bytes);
  alerts : list string;
  console : list (string * Exn)
}.

(** A computation that reads and writes the world and ends with a value
    or with a thrown exception; what it wrote before throwing stays. *)
Definition M (A : Type) : Type := World -> (Exn + A) * World.

Definition ret {A} (a : A) : M A := fun w => (inr a, w).

Definition throw {A} (e : Exn) : M A := fun w => (inl e, w).

Definition bind {A B} (m : M A) (k : A -> M B) : M B :=
  fun w =>
    match m w with
    | (inr a, w') => k a w'
    | (inl e, w') => (inl e, w')
    end.

(** [try { body } catch (e) { handler e }]. *)
Definition tryCatch {A} (body : M A) (handler : Exn -> M A) : M A :=
  fun w =>
    match body w with
    | (inr a, w') => (inr a, w')
    | (inl e, w') => handler e w'
    end.

(** [for (const x of xs) { body x }]. *)
Fixpoint forOf {A} (xs : list A) (body : A -> M unit) : M unit :=
  match xs with
  | [] => ret tt
  | x :: rest => bind (body x) (fun _ => forOf rest body)
  end.

End Effects.

Arguments World : clear implicits.
Arguments M : clear implicits.

Declare Scope js_scope.
Delimit Scope js_scope with M.
Notation "'let*' x ':=' c 'in' k" := (bind c (fun x => k))
  (at level 10, x name, c at level 200, k at level 200) : js_scope.
Notation "c ';;' k" := (bind c (fun _ => k))
  (at level 100, k at level 200, right associativity) : js_scope.

(** ** Calls into the PDF library and the browser *)

Section Calls.
Context {num : Type} {N : JsNumber num} (lib : PdfLib num).
Local Open Scope js_scope.

Local Abbreviation M := (M num).
Local Abbreviation World := (World num).

Definition setHeap (w : World) (h : list (PDFDocument num)) : World :=
  {| heap := h; blobs := blobs w; downloads := downloads w;
     alerts := alerts w; console := console w |}.

Definition setBlobs (w : World) (b : list (option Bytes)) : World :=
  {| heap := heap w; blobs := b; downloads := downloads w;
     alerts := alerts w; console := console w |}.

Definition addDownload (w : World) (name : string) (content : Bytes) : World :=
  {| heap := heap w; blobs := blobs w;
     downloads := downloads w ++ [(name, content)];
     alerts := alerts w; console := console w |}.

(** [alert(message)]. *)
Definition alert (message : string) : M unit :=
  fun w =>
    (inr tt,
     {| heap := heap w; blobs := blobs w; downloads := downloads w;
        alerts := alerts w ++ [message]; console := console w |}).

(** [console.error(message, error)]. *)
Definition console_error (message : string) (error : Exn) : M unit :=
  fun w =>
    (inr tt,
     {| heap := heap w; blobs := blobs w; downloads := downloads w;
        alerts := alerts w; console := console w ++ [(message, error)] |}).

(** A reference to a document is its index in the heap, a reference to a
    page the document's reference and the page's index. *)
Definition DocRef : Type := nat.
Definition PageRef : Type := (nat * nat)%type.

(** [PDFDocument.load(pdf)]: a new document object each time; throws on
    [null] and on bytes the parser rejects. *)
Definition PDFDocument_load (pdf : option Bytes) : M DocRef :=
  fun w =>
    match pdf with
    | None => (inl (TypeError "pdf must be of type string, Uint8Array or ArrayBuffer"), w)
    | Some bytes =>
        match pdf_parse lib bytes with
        | None => (inl ParseError, w)
        | Some pages =>
            (inr (length (heap w)),
             setHeap w (heap w ++ [{| doc_pages := pages; doc_fonts := [] |}]))
        end
    end.

Definition addFont (font : StandardFonts) (d : PDFDocument num) : PDFDocument num :=
  {| doc_pages := doc_pages d; doc_fonts := doc_fonts d ++ [font] |}.

(** [doc.embedFont(font)]. *)
Definition embedFont (doc : DocRef) (font : StandardFonts) : M StandardFonts :=
  fun w =>
    if font_available lib font
    then (inr font, setHeap w (alter (addFont font) doc (heap w)))
    else (inl (FontError font), w).

(** [doc.getPages()]. *)
Definition getPages (doc : DocRef) : M (list PageRef) :=
  fun w =>
    (inr (match heap w !! doc with
          | Some d => map (fun i => (doc, i)) (seq 0 (length (doc_pages d)))
          | None => []
          end), w).

(** Reading a property of [target], which may be [undefined]. *)
Definition member {A} (target : option A) (property : string) : M A :=
  match target with
  | Some a => ret a
  | None => throw (TypeError ("Cannot read properties of undefined (reading '" ++ property ++ "')"))
  end.

(** [page.getSize()].  References come from [getPages], so the page is
    always found. *)
Definition getSize (page : option PageRef) : M (num * num) :=
  let* target := member page "getSize" in
  fun w =>
    match heap w !! fst target with
    | Some d =>
        match doc_pages d !! snd target with
        | Some p => (inr (page_width p, page_height p), w)
        | None => (inl (TypeError "no such page"), w)
        end
    | None => (inl (TypeError "no such document"), w)
    end.

Record DrawTextOptions : Type := {
  opt_x : num;
  opt_y : num;
  opt_size : num;
  opt_font : StandardFonts;
  opt_color : num * num * num
}.

Definition rgb (r g b : num) : num * num * num := (r, g, b).

Definition pushText (op : TextOp num) (p : PDFPage num) : PDFPage num :=
  {| page_width := page_width p; page_height := page_height p;
     page_content := page_content p ++ [op] |}.

Definition onPage (i : nat) (f : PDFPage num -> PDFPage num) (d : PDFDocument num)
  : PDFDocument num :=
  {| doc_pages := alter f i (doc_pages d); doc_fonts := doc_fonts d |}.

(** [page.drawText(text, options)].  The library first validates its
    arguments: [text] must be a string, and [options.x] and [options.y]
    numbers, which [NaN] is not ([size] and [color] are validated too;
    the handler passes literals there).  Then the font must encode the
    string; the operation is appended to the page's content. *)
Definition drawText (page : PageRef) (text : Js.Value) (options : DrawTextOptions)
  : M unit :=
  match text with
  | Js.JString s =>
      if isNaN (opt_x options)
      then throw (TypeError "options.x must be of type number")
      else if isNaN (opt_y options)
      then throw (TypeError "options.y must be of type number")
      else if forallb (font_encodes lib) (list_ascii_of_string s)
      then fun w =>
        let op := {| op_text := s; op_x := opt_x options; op_y := opt_y options;
                     op_size := opt_size options; op_font := opt_font options;
                     op_color := opt_color options |} in
        (inr tt, setHeap w (alter (onPage (snd page) (pushText op)) (fst page) (heap w)))
      else throw (EncodingError s)
  | _ => throw (TypeError "text must be of type string")
  end.

(** [doc.save()].  References come from [PDFDocument_load], so the
    document is always found. *)
Definition save (doc : DocRef) : M Bytes :=
  fun w =>
    match heap w !! doc with
    | Some d =>
        match pdf_serialize lib d with
        | Some bytes => (inr bytes, w)
        | None => (inl SaveError, w)
        end
    | None => (inl (TypeError "no such document"), w)
    end.

(** [URL.createObjectURL(blob)]. *)
Definition createObjectURL (blob : Bytes) : M ObjectURL :=
  fun w => (inr (length (blobs w)), setBlobs w (blobs w ++ [Some blob])).

(** [URL.revokeObjectURL(url)]. *)
Definition revokeObjectURL (url : ObjectURL) : M unit :=
  fun w => (inr tt, setBlobs w (<[url := None]> (blobs w))).

(** A link with [href] and [download] set, clicked: the blob behind the
    URL is handed to the user under the given name. *)
Definition click (href : ObjectURL) (download : string) : M unit :=
  fun w =>
    match blobs w !! href with
    | Some (Some content) => (inr tt, addDownload w download content)
    | _ => (inr tt, w)
    end.

End Calls.

(** ** The component *)

Module TemplateField.
Record t (num : Type) : Type := mk { x : num; y : num; fieldName : string }.
Arguments mk {num}.
Arguments x {num}.
Arguments y {num}.
Arguments fieldName {num}.
End TemplateField.

Record File : Type := { file_name : string; file_bytes : Bytes }.

Section Component.
Context {num : Type} {N : JsNumber num} (lib : PdfLib num).
Local Open Scope js_scope.
Local Open Scope jsnum_scope.

Local Abbreviation M := (M num).
Local Abbreviation TemplateField := (TemplateField.t num).

(** The five [useState] cells. *)
Record State : Type := {
  pdfFile : option ObjectURL;
  templateFields : list TemplateField;
  csvData : list Js.Object;
  isTemplateMode : bool;
  templatePdfBytes : option Bytes
}.

Definition initialState : State :=
  {| pdfFile := None; templateFields := []; csvData := [];
     isTemplateMode := false; templatePdfBytes := None |}.

Definition setPdfFile (st : State) (v : option ObjectURL) : State :=
  {| pdfFile := v; templateFields := templateFields st; csvData := csvData st;
     isTemplateMode := isTemplateMode st; templatePdfBytes := templatePdfBytes st |}.

Definition setTemplateFields (st : State)
  (update : list TemplateField -> list TemplateField) : State :=
  {| pdfFile := pdfFile st; templateFields := update (templateFields st);
     csvData := csvData st; isTemplateMode := isTemplateMode st;
     templatePdfBytes := templatePdfBytes st |}.

Definition setCsvData (st : State) (v : list Js.Object) : State :=
  {| pdfFile := pdfFile st; templateFields := templateFields st; csvData := v;
     isTemplateMode := isTemplateMode st; templatePdfBytes := templatePdfBytes st |}.

Definition setIsTemplateMode (st : State) (v : bool) : State :=
  {| pdfFile := pdfFile st; templateFields := templateFields st;
     csvData := csvData st; isTemplateMode := v;
     templatePdfBytes := templatePdfBytes st |}.

Definition setTemplatePdfBytes (st : State) (v : option Bytes) : State :=
  {| pdfFile := pdfFile st; templateFields := templateFields st;
     csvData := csvData st; isTemplateMode := isTemplateMode st;
     templatePdfBytes := v |}.

(** [onDrop]: the dropzone's callback, given the accepted files. *)
Definition onDrop (st : State) (acceptedFiles : list File) : M State :=
  match acceptedFiles with
  | file :: _ =>
      let* fileUrl := createObjectURL (file_bytes file) in
      let st' := setPdfFile st (Some fileUrl) in
      if isTemplateMode st
      then
        let arrayBuffer := file_bytes file in
        ret (setTemplatePdfBytes st' (Some arrayBuffer))
      else ret st'
  | [] => ret st
  end.

(** [onDrop] is an [async] function.  Outside template mode it runs to
    its end at once.  In template mode it returns to the event loop at
    [await file.arrayBuffer()], after [setPdfFile], and stores the bytes
    when the read has been fulfilled; if the read is rejected nothing is
    stored.  [onDrop] above is the handler with its read fulfilled at
    once; [onDrop_start] is the part before the [await], which also gives
    the file whose read is pending, and [onDrop_resume] the part after
    it, run on the state of that later moment. *)
Definition onDrop_start (st : State) (acceptedFiles : list File)
  : M (State * option File) :=
  match acceptedFiles with
  | file :: _ =>
      let* fileUrl := createObjectURL (file_bytes file) in
      let st' := setPdfFile st (Some fileUrl) in
      if isTemplateMode st then ret (st', Some file) else ret (st', None)
  | [] => ret (st, None)
  end.

Definition onDrop_resume (st : State) (file : File) : State :=
  let arrayBuffer := file_bytes file in
  setTemplatePdfBytes st (Some arrayBuffer).

(** [handleCSVUpload]: [results] is what the parser's [complete] callback
    receives as [results.data] for the chosen file, if one was chosen. *)
Definition handleCSVUpload (st : State) (results : option (list Js.Object)) : State :=
  match results with
  | Some data => setCsvData st data
  | None => st
  end.

Record DOMRect : Type := {
  left : num;
  top : num;
  width : num;
  height : num
}.

(** A click: the pointer position and the bounding box of the element
    the handler is attached to. *)
Record MouseEvent : Type := {
  clientX : num;
  clientY : num;
  boundingClientRect : DOMRect
}.

(** [handleTemplateFieldAdd]: [answer] is what [prompt] returns, [None]
    for [null]. *)
Definition handleTemplateFieldAdd (st : State) (event : MouseEvent)
  (answer : option string) : State :=
  if negb (isTemplateMode st) then st
  else
    let rect := boundingClientRect event in
    let x := ((clientX event -^ left rect) /^ width rect) *^ lit 100 in
    let y := ((clientY event -^ top rect) /^ height rect) *^ lit 100 in
    match answer with
    | Some fieldName =>
        if negb (String.eqb fieldName "")
        then setTemplateFields st
               (fun prev => prev ++ [TemplateField.mk x y fieldName])
        else st
    | None => st
    end.

(** The [onClick] of the viewer's container: the container is rendered
    once a file is shown, and carries the handler in template mode
    only. *)
Definition onClick (st : State) : option (MouseEvent -> option string -> State) :=
  match pdfFile st with
  | None => None
  | Some _ => if isTemplateMode st then Some (handleTemplateFieldAdd st) else None
  end.

(** A click on the page, dispatched to the handler the rendering
    attached, if any. *)
Definition clickPage (st : State) (event : MouseEvent) (answer : option string)
  : State :=
  match onClick st with
  | Some handler => handler event answer
  | None => st
  end.

(** The Template Mode button. *)
Definition toggleTemplateMode (st : State) : State :=
  setIsTemplateMode st (negb (isTemplateMode st)).

Definition preconditionNotice : string :=
  "Please ensure you have a template PDF, CSV data, and template fields set".

Definition failureNotice : string :=
  "Error generating PDFs. Please check the console for details.".

(** The body of the inner loop: one field drawn on the row's page. *)
Definition stampField (newPdf : DocRef) (newPage : option PageRef)
  (width height : num) (row : Js.Object) (field : TemplateField) : M unit :=
  let text := Js.or (Js.get row (TemplateField.fieldName field)) (Js.JString "") in
  let* page := member newPage "drawText" in
  let x := (TemplateField.x field /^ lit 100) *^ width in
  let y := height -^ (TemplateField.y field /^ lit 100) *^ height in
  let* font := embedFont lib newPdf Helvetica in
  drawText lib page text
    {| opt_x := x; opt_y := y; opt_size := lit 12; opt_font := font;
       opt_color := rgb (lit 0) (lit 0) (lit 0) |}.

Definition downloadName (row : Js.Object) : string :=
  "generated_" ++ Js.ToString (Js.getAt row (head (Js.keys row))) ++ ".pdf".

(** The body of the outer loop: one row stamped, saved and downloaded. *)
Definition stampRow (template : option Bytes) (fields : list TemplateField)
  (width height : num) (row : Js.Object) : M unit :=
  let* newPdf := PDFDocument_load lib template in
  let* pages := getPages newPdf in
  let newPage := head pages in
  forOf fields (stampField newPdf newPage width height row) ;;
  let* pdfBytes := save lib newPdf in
  let blob := pdfBytes in
  let* url := createObjectURL blob in
  click url (downloadName row) ;;
  revokeObjectURL url.

(** The [try] block of [generatePDFs]. *)
Definition generatePDFs_try (st : State) : M unit :=
  let* pdfDoc := PDFDocument_load lib (templatePdfBytes st) in
  let* font := embedFont lib pdfDoc Helvetica in
  let* pages := getPages pdfDoc in
  let page := head pages in
  let* size := getSize page in
  let '(width, height) := size in
  forOf (csvData st)
    (stampRow (templatePdfBytes st) (templateFields st) width height).

Definition generatePDFs_catch (error : Exn) : M unit :=
  console_error "Error generating PDFs:" error ;;
  alert failureNotice.

Definition isNull {A} (v : option A) : bool :=
  match v with Some _ => false | None => true end.

(** [generatePDFs]. *)
Definition generatePDFs (st : State) : M unit :=
  if isNull (templatePdfBytes st)
     || (length (csvData st) =? 0)%nat
     || (length (templateFields st) =? 0)%nat
  then alert preconditionNotice
  else tryCatch (generatePDFs_try st) generatePDFs_catch.

End Component.

Arguments State : clear implicits.
Arguments DOMRect : clear implicits.
Arguments MouseEvent : clear implicits.

(** ** What a stamped document holds *)

Section Stamping.
Context {num : Type} {N : JsNumber num} (lib : PdfLib num).
Local Open Scope jsnum_scope.
Local Open Scope js_scope.

Local Abbreviation TemplateField := (TemplateField.t num).
Local Abbreviation World := (World num).

(** The value [generatePDFs] hands to [drawText] for a field of a row. *)
Definition fieldText (row : Js.Object) (field : TemplateField) : Js.Value :=
  Js.or (Js.get row (TemplateField.fieldName field)) (Js.JString "").

(** The position a field is drawn at on a page of the given size. *)
Definition drawX (width : num) (field : TemplateField) : num :=
  (TemplateField.x field /^ lit 100) *^ width.

Definition drawY (height : num) (field : TemplateField) : num :=
  height -^ (TemplateField.y field /^ lit 100) *^ height.

(** The text operation [drawText] appends for a field and a string. *)
Definition textOp (width height : num) (field : TemplateField) (s : string)
  : TextOp num :=
  {| op_text := s; op_x := drawX width field; op_y := drawY height field;
     op_size := lit 12; op_font := Helvetica;
     op_color := (lit 0, lit 0, lit 0) |}.

(** The text operation a field of a row leaves on the page, when its text
    is a string. *)
Definition fieldOp (width height : num) (row : Js.Object) (field : TemplateField)
  : option (TextOp num) :=
  match fieldText row field with
  | Js.JString s => Some (textOp width height field s)
  | _ => None
  end.

(** The text operations of a row, one per field, when every text is a
    string. *)
Definition rowOps (width height : num) (row : Js.Object)
  (fields : list TemplateField) : option (list (TextOp num)) :=
  mapM (fieldOp width height row) fields.

(** A page after [ops] were drawn on it. *)
Definition pushTexts (ops : list (TextOp num)) (p : PDFPage num) : PDFPage num :=
  {| page_width := page_width p; page_height := page_height p;
     page_content := page_content p ++ ops |}.

(** A document after [ops] were drawn on its first page and [k] fonts
    embedded. *)
Definition stampDoc (ops : list (TextOp num)) (k : nat) (d : PDFDocument num)
  : PDFDocument num :=
  {| doc_pages := alter (pushTexts ops) 0 (doc_pages d);
     doc_fonts := doc_fonts d ++ replicate k Helvetica |}.

(** The document [PDFDocument.load] creates from parsed pages. *)
Definition freshDoc (pages : list (PDFPage num)) : PDFDocument num :=
  {| doc_pages := pages; doc_fonts := [] |}.

(** Two worlds that differ in their documents only. *)
Definition sameOutsideHeap (w w' : World) : Prop :=
  blobs w' = blobs w /\ downloads w' = downloads w /\
  alerts w' = alerts w /\ console w' = console w.

(** A document loaded from [pages] on whose first page the operations of
    the first [n] fields of [row] were drawn, and nothing else; of all
    the fields when [complete]. *)
Definition Stamped (complete : bool) (pages : list (PDFPage num)) (W H : num)
  (row : Js.Object) (fields : list TemplateField) (d : PDFDocument num) : Prop :=
  exists n k ops,
    rowOps W H row (take n fields) = Some ops /\
    d = stampDoc ops k (freshDoc pages) /\
    (complete = true -> n = length fields /\ k = length fields).

(** Whether a computation ended normally. *)
Definition succeeded {A} (res : Exn + A) : bool :=
  match res with inr _ => true | inl _ => false end.

(** The document of a row on which every field was drawn. *)
Definition stampedDoc (pages : list (PDFPage num)) (fields : list TemplateField)
  (ops : list (TextOp num)) : PDFDocument num :=
  stampDoc ops (length fields) (freshDoc pages).

(** [pages] is what the loader parses out of the stored template. *)
Definition Loaded (template : option Bytes) (pages : list (PDFPage num)) : Prop :=
  exists bytes, template = Some bytes /\ pdf_parse lib bytes = Some pages.

(** [out] is the download of [row]: named after the row, with the bytes
    of the document [d], which carries every field of the row. *)
Definition Delivered (pages : list (PDFPage num)) (W H : num)
  (fields : list TemplateField) (row : Js.Object) (d : PDFDocument num)
  (out : string * Bytes) : Prop :=
  exists ops,
    rowOps W H row fields = Some ops /\ d = stampedDoc pages fields ops /\
    out.1 = downloadName row /\ pdf_serialize lib d = Some out.2.

(** The world after [alert(message)]. *)
Definition alerted (w : World) (message : string) : World :=
  {| heap := heap w; blobs := blobs w; downloads := downloads w;
     alerts := alerts w ++ [message]; console := console w |}.

(** The world after the [catch] block ran on [error]. *)
Definition caught (w : World) (error : Exn) : World :=
  {| heap := heap w; blobs := blobs w; downloads := downloads w;
     alerts := alerts w ++ [failureNotice];
     console := console w ++ [("Error generating PDFs:", error)] |}.

(** The first four statements of the [try] block: the template is loaded
    once to read the size of its first page. *)
Definition measureTemplate (template : option Bytes) : M num (num * num) :=
  let* pdfDoc := PDFDocument_load lib template in
  let* font := embedFont lib pdfDoc Helvetica in
  let* pages := getPages pdfDoc in
  getSize (head pages).

End Stamping.

(** ** Sample inputs

    A small instance of the PDF library, over doubles: a buffer parses
    when it starts with the header [%PDF], into one blank Letter page;
    Helvetica encodes the ASCII characters; a document serialises to the
    texts on its pages. *)

Module Sample.

Definition letter : PDFPage float :=
  {| page_width := 612%float; page_height := 792%float; page_content := [] |}.

Definition hasHeader (pdf : Bytes) : bool :=
  match pdf with
  | Byte.x25 :: Byte.x50 :: Byte.x44 :: Byte.x46 :: _ => true
  | _ => false
  end.

Definition pageTexts (p : PDFPage float) : list string :=
  map op_text (page_content p).

Definition lib : PdfLib float :=
  {| pdf_parse := fun pdf => if hasHeader pdf then Some [letter] else None;
     font_available := fun _ => true;
     font_encodes := fun c => (N_of_ascii c <? 128)%N;
     pdf_serialize := fun d =>
       Some (list_byte_of_string
               (String.concat "|" (concat (map pageTexts (doc_pages d))))) |}.

Definition template : Bytes := list_byte_of_string "%PDF-1.7".

Definition world : World float :=
  {| heap := []; blobs := []; downloads := []; alerts := []; console := [] |}.

Definition field (x y : float) (name : string) : TemplateField.t float :=
  TemplateField.mk x y name.

(** The end-to-end scenario: one field, two rows. *)
Definition session : State float :=
  {| pdfFile := Some 0;
     templateFields := [field 10 10 "name"];
     csvData := [[("name", Js.JString "Alice")]; [("name", Js.JString "Bob")]];
     isTemplateMode := true;
     templatePdfBytes := Some template |}.

(** The same session viewed outside template mode. *)
Definition viewing : State float := setIsTemplateMode session false.

(** A zero-length file uploaded as the template. *)
Definition emptyUpload : State float := setTemplatePdfBytes session (Some []).

(** A field bound to a name no row has, and which every object
    inherits. *)
Definition inheritedName : State float :=
  setTemplateFields session (fun _ => [field 10 10 "constructor"]).

(** A data file whose second header is a number: [name,1]. *)
Definition numericHeader : State float :=
  setCsvData session [[("name", Js.JString "Alice"); ("1", Js.JString "x")]].


Definition pointer : MouseEvent float :=
  {| clientX := 150%float; clientY := 300%float;
     boundingClientRect :=
       {| left := 100%float; top := 100%float;
          width := 200%float; height := 400%float |} |}.



End Sample.

(** ** The rendered page and a session

    What the component renders decides which handler an event of the
    user reaches: the Template Mode button is always there; the data file
    input and the Generate button are rendered in template mode only, the
    button disabled under the condition [generatePDFs] tests first; the
    dropzone is rendered while no file is shown, the viewer's container
    afterwards. *)

Section Session.
Context {num : Type} {N : JsNumber num} (lib : PdfLib num).
Local Open Scope js_scope.
Local Open Scope jsnum_scope.

Local Abbreviation World := (World num).
Local Abbreviation State := (State num).

(** The [disabled] attribute of the Generate button. *)
Definition generateDisabled (st : State) : bool :=
  isNull (templatePdfBytes st)
  || (length (csvData st) =? 0)%nat
  || (length (templateFields st) =? 0)%nat.

(** The dropzone is rendered in place of the viewer while [pdfFile] is
    [null]. *)
Definition dropzoneRendered (st : State) : bool := isNull (pdfFile st).

(** What the user does. *)
Inductive Event : Type :=
  | ToggleTemplateMode
  | DropFiles (acceptedFiles : list File)
  | ChooseCsv (results : option (list Js.Object))
  | ClickViewer (event : MouseEvent num) (answer : option string)
  | ClickGenerate.

(** An event reaches its handler when the element that carries the
    handler is rendered (and, for the button, enabled); otherwise nothing
    happens. *)
Definition dispatch (st : State) (ev : Event) : M num State :=
  match ev with
  | ToggleTemplateMode => ret (toggleTemplateMode st)
  | DropFiles acceptedFiles =>
      if dropzoneRendered st then onDrop st acceptedFiles else ret st
  | ChooseCsv results =>
      if isTemplateMode st then ret (handleCSVUpload st results) else ret st
  | ClickViewer event answer => ret (clickPage st event answer)
  | ClickGenerate =>
      if isTemplateMode st && negb (generateDisabled st)
      then generatePDFs lib st ;; ret st
      else ret st
  end.

(** A session: the events of the user, one after the other. *)
Fixpoint session (st : State) (evs : list Event) : M num State :=
  match evs with
  | [] => ret st
  | ev :: rest => let* st' := dispatch st ev in session st' rest
  end.

(** A session in which the read of a dropped file takes time.  Besides
    the events of the user there is the settling of a pending read,
    fulfilled or rejected; the state of the session is the component
    state and the files whose reads are pending. *)
Inductive Step : Type :=
  | User (ev : Event)
  | ReadSettled (i : nat) (fulfilled : bool).

Definition step (run : State * list File) (s : Step) : M num (State * list File) :=
  match s with
  | User (DropFiles acceptedFiles) =>
      if dropzoneRendered run.1
      then
        let* started := onDrop_start run.1 acceptedFiles in
        ret (started.1, run.2 ++ option_list started.2)
      else ret run
  | User ev =>
      let* st' := dispatch run.1 ev in
      ret (st', run.2)
  | ReadSettled i fulfilled =>
      match run.2 !! i with
      | Some file =>
          ret (if fulfilled then onDrop_resume run.1 file else run.1,
               delete i run.2)
      | None => ret run
      end
  end.

Fixpoint interleaved (run : State * list File) (steps : list Step)
  : M num (State * list File) :=
  match steps with
  | [] => ret run
  | s :: rest => let* run' := step run s in interleaved run' rest
  end.

(** The world with what a computation added to it: new documents, new
    object URLs (all revoked), new downloads, notices and console
    entries. *)
Definition extend (w : World) (docs : list (PDFDocument num)) (revoked : nat)
  (outs : list (string * Bytes)) (notes : list string)
  (logs : list (string * Exn)) : World :=
  {| heap := heap w ++ docs;
     blobs := blobs w ++ replicate revoked None;
     downloads := downloads w ++ outs;
     alerts := alerts w ++ notes;
     console := console w ++ logs |}.

(** The file shown is behind a live object URL, and it is the template
    when a template is stored; no template is stored while no file is
    shown. *)
Definition Shown (st : State) (w : World) : Prop :=
  match pdfFile st with
  | Some url =>
      exists content,
        blobs w !! url = Some (Some content) /\
        forall bytes, templatePdfBytes st = Some bytes -> bytes = content
  | None => templatePdfBytes st = None
  end.

(** What [drawText] accepts for a field of a row on a page of the given
    size: the cell is a string the font encodes, and the position
    computed for the field is not [NaN]. *)
Definition Drawable (width height : num) (row : Js.Object)
  (field : TemplateField.t num) : Prop :=
  (exists s,
     fieldText row field = Js.JString s /\
     forallb (font_encodes lib) (list_ascii_of_string s) = true) /\
  isNaN ((TemplateField.x field /^ lit 100) *^ width) = false /\
  isNaN (height -^ (TemplateField.y field /^ lit 100) *^ height) = false.

(** What a run of [generatePDFs] draws, as a property [P] of the first
    page of the template, a field and a text operation.  The documents
    the run adds to the heap are [docs]; the one after the first with
    index [i] is the document of row [i]: the loaded template with text
    operations added to its first page, one for each of the first [n]
    fields, in field order, each with the text of its field in that row
    and with [P].  When the run shows no notice, every row has its
    document and every field its operation. *)
Definition Drawn (st : State) (w : World)
  (P : PDFPage num -> TemplateField.t num -> TextOp num -> Prop) : Prop :=
  exists docs,
    heap (generatePDFs lib st w).2 = heap w ++ docs /\
    (forall i d, docs !! S i = Some d ->
       exists row p ps n k ops,
         csvData st !! i = Some row /\
         Loaded lib (templatePdfBytes st) (p :: ps) /\
         d = stampDoc ops k (freshDoc (p :: ps)) /\
         Forall2 (fun field op =>
                    fieldText row field = Js.JString (op_text op) /\ P p field op)
                 (take n (templateFields st)) ops /\
         (alerts (generatePDFs lib st w).2 = alerts w ->
          n = length (templateFields st))) /\
    (alerts (generatePDFs lib st w).2 = alerts w ->
     length docs = S (length (csvData st))).

End Session.

Arguments Event : clear implicits.
Arguments Step : clear implicits.

(** ** Loops *)

Section Loops.
Context {num : Type}.

Lemma bind_inr {A B} (m : M num A) (k : A -> M num B) w a w1 :
  m w = (inr a, w1) -> bind m k w = k a w1.
Proof. unfold bind. by intros ->. Qed.


Lemma forOf_cons {A} (x : A) xs (body : A -> M num unit) w :
  forOf (x :: xs) body w =
    match body x w with
    | (inr _, w1) => forOf xs body w1
    | (inl e, w1) => (inl e, w1)
    end.
Proof. reflexivity. Qed.



End Loops.

(** ** Runs of the stamping loops *)

Section Runs.
Context {num : Type} {N : JsNumber num} (lib : PdfLib num).

Local Abbreviation TemplateField := (TemplateField.t num).
Local Abbreviation World := (World num).

Lemma pushTexts_nil (p : PDFPage num) : pushTexts [] p = p.
Proof. destruct p; unfold pushTexts; simpl. by rewrite app_nil_r. Qed.

Lemma pushTexts_app ops1 ops2 (p : PDFPage num) :
  pushTexts ops2 (pushTexts ops1 p) = pushTexts (ops1 ++ ops2) p.
Proof. unfold pushTexts; simpl. by rewrite app_assoc. Qed.

Lemma stampDoc_nil (d : PDFDocument num) : stampDoc [] 0 d = d.
Proof.
  destruct d as [pages fonts]; unfold stampDoc; simpl.
  rewrite app_nil_r. f_equal. apply list_alter_id, pushTexts_nil.
Qed.

Lemma stampDoc_stampDoc ops1 k1 ops2 k2 (d : PDFDocument num) :
  stampDoc ops2 k2 (stampDoc ops1 k1 d) = stampDoc (ops1 ++ ops2) (k1 + k2) d.
Proof.
  unfold stampDoc; simpl. f_equal.
  - rewrite list_alter_alter_eq. apply list_alter_ext; [|done].
    intros p _. apply pushTexts_app.
  - by rewrite <- app_assoc, replicate_add.
Qed.

Lemma addFont_stampDoc (d : PDFDocument num) :
  addFont Helvetica d = stampDoc [] 1 d.
Proof.
  unfold addFont, stampDoc; simpl. f_equal.
  symmetry. apply list_alter_id, pushTexts_nil.
Qed.

Lemma onPage_stampDoc op (d : PDFDocument num) :
  onPage 0 (pushText op) d = stampDoc [op] 0 d.
Proof. unfold onPage, stampDoc; simpl. by rewrite app_nil_r. Qed.

Lemma sameOutsideHeap_refl (w : World) : sameOutsideHeap w w.
Proof. by repeat split. Qed.

Lemma sameOutsideHeap_trans (w1 w2 w3 : World) :
  sameOutsideHeap w1 w2 -> sameOutsideHeap w2 w3 -> sameOutsideHeap w1 w3.
Proof. unfold sameOutsideHeap. intuition congruence. Qed.

Lemma alter_last {A} (f : A -> A) (h : list A) (d : A) :
  alter f (length h) (h ++ [d]) = h ++ [f d].
Proof. by rewrite <- (Nat.add_0_r (length h)), alter_app_r. Qed.

Lemma lookup_last {A} (h : list A) (d : A) : (h ++ [d]) !! length h = Some d.
Proof. by apply list_lookup_middle. Qed.

(** One turn of the inner loop, on the document created last. *)
Lemma stampField_run h d w W H row field res w' :
  heap w = h ++ [d] ->
  stampField lib (length h) (Some (length h, 0)) W H row field w = (res, w') ->
  sameOutsideHeap w w' /\
  match res with
  | inr _ =>
      exists op, fieldOp W H row field = Some op /\
        heap w' = h ++ [stampDoc [op] 1 d]
  | inl _ => exists k, heap w' = h ++ [stampDoc [] k d]
  end.
Proof.
  intros Hh. unfold stampField, member, bind, ret, embedFont.
  destruct (font_available lib Helvetica).
  2:{ intros [= <- <-]. split; [by repeat split|].
      exists 0. by rewrite stampDoc_nil. }
  rewrite Hh, alter_last, addFont_stampDoc.
  unfold fieldOp, fieldText, drawText, throw.
  destruct (Js.or _ _) as [| |b|s|items|name|];
    try (intros [= <- <-]; split; [by repeat split|by exists 1]).
  destruct (isNaN _); [intros [= <- <-]; split; [by repeat split|by exists 1]|].
  destruct (isNaN _); [intros [= <- <-]; split; [by repeat split|by exists 1]|].
  destruct (forallb _ _).
  - intros [= <- <-]. split; [by repeat split|].
    eexists; split; [done|]. simpl.
    by rewrite alter_last, onPage_stampDoc, stampDoc_stampDoc.
  - intros [= <- <-]. split; [by repeat split|by exists 1].
Qed.

(** The inner loop on the document created last: it draws the operations
    of a prefix of the fields, all of them when it ends normally. *)
Lemma forOf_stampField_run h W H row fs d w res w' :
  heap w = h ++ [d] ->
  forOf fs (stampField lib (length h) (Some (length h, 0)) W H row) w = (res, w') ->
  sameOutsideHeap w w' /\
  exists n k ops,
    rowOps W H row (take n fs) = Some ops /\
    heap w' = h ++ [stampDoc ops k d] /\
    (forall u, res = inr u -> n = length fs /\ k = length fs).
Proof.
  revert d w. induction fs as [|f fs IH]; intros d w Hh Hrun.
  - injection Hrun as <- <-. split; [apply sameOutsideHeap_refl|].
    exists 0, 0, []. by rewrite stampDoc_nil.
  - rewrite forOf_cons in Hrun.
    destruct (stampField _ _ _ _ _ _ _ _) as [[e|[]] w1] eqn:Hf;
      destruct (stampField_run _ _ _ _ _ _ _ _ _ Hh Hf) as [Hsame Hdoc].
    + injection Hrun as <- <-. split; [done|].
      destruct Hdoc as [k Hk]. by exists 0, k, [].
    + destruct Hdoc as (op & Hop & Hh1).
      destruct (IH _ _ Hh1 Hrun) as (Hsame' & n & k & ops & Hops & Hh' & Hall).
      split; [by eapply sameOutsideHeap_trans|].
      exists (S n), (S k), (op :: ops). split; [|split].
      * unfold rowOps in *. simpl. by rewrite Hop, Hops.
      * by rewrite Hh', stampDoc_stampDoc.
      * intros u Hu. destruct (Hall u Hu) as [-> ->]. done.
Qed.

(** The inner loop on a document without pages: the first turn throws. *)
Lemma forOf_stampField_nopage doc W H row fs w res w' :
  forOf fs (stampField lib doc None W H row) w = (res, w') ->
  w' = w /\ (forall u, res = inr u -> fs = []).
Proof.
  destruct fs as [|f fs]; intros Hrun.
  - by injection Hrun as <- <-.
  - injection Hrun as <- <-. by split.
Qed.

Lemma stampedDoc_Stamped complete pages W H row fields ops :
  rowOps W H row fields = Some ops ->
  Stamped complete pages W H row fields (stampedDoc pages fields ops).
Proof.
  intros Hops. exists (length fields), (length fields), ops.
  by rewrite firstn_all.
Qed.

(** One turn of the outer loop.  It creates one document and touches no
    other; when it ends normally the document carries every field of the
    row and has been handed to the user, when it throws nothing has. *)
Lemma stampRow_run template fields W H row w res w' :
  stampRow lib template fields W H row w = (res, w') ->
  alerts w' = alerts w /\ console w' = console w /\
  match res with
  | inr _ =>
      exists bytes pages ops content,
        template = Some bytes /\ pdf_parse lib bytes = Some pages /\
        rowOps W H row fields = Some ops /\
        heap w' = heap w ++ [stampedDoc pages fields ops] /\
        pdf_serialize lib (stampedDoc pages fields ops) = Some content /\
        downloads w' = downloads w ++ [(downloadName row, content)] /\
        blobs w' = blobs w ++ [None]
  | inl _ =>
      downloads w' = downloads w /\ blobs w' = blobs w /\
      (heap w' = heap w \/
       exists bytes pages d,
         template = Some bytes /\ pdf_parse lib bytes = Some pages /\
         Stamped false pages W H row fields d /\ heap w' = heap w ++ [d])
  end.
Proof.
  unfold stampRow. intros Hrun.
  destruct template as [bytes|]; [|injection Hrun as <- <-; by auto 6].
  destruct (pdf_parse lib bytes) as [pages|] eqn:Hparse.
  2:{ unfold bind, PDFDocument_load in Hrun. rewrite Hparse in Hrun.
      injection Hrun as <- <-. by auto 6. }
  set (w1 := setHeap w (heap w ++ [freshDoc pages])).
  assert (Hload : PDFDocument_load lib (Some bytes) w = (inr (length (heap w)), w1)).
  { unfold PDFDocument_load. by rewrite Hparse. }
  rewrite (bind_inr _ _ _ _ _ Hload) in Hrun.
  assert (Hh1 : heap w1 = heap w ++ [freshDoc pages]) by done.
  unfold bind at 1, getPages in Hrun. rewrite Hh1, lookup_last in Hrun.
  assert (Hloop : forall res2 w2,
    forOf fields
      (stampField lib (length (heap w))
         (head (map (fun i => (length (heap w), i)) (seq 0 (length (doc_pages (freshDoc pages))))))
         W H row) w1 = (res2, w2) ->
    sameOutsideHeap w1 w2 /\
    exists n k ops,
      rowOps W H row (take n fields) = Some ops /\
      heap w2 = heap w ++ [stampDoc ops k (freshDoc pages)] /\
      (forall u, res2 = inr u -> n = length fields /\ k = length fields)).
  { intros res2 w2 Hloop. destruct pages as [|p ps]; simpl in Hloop.
    - apply forOf_stampField_nopage in Hloop as [-> Hall].
      split; [apply sameOutsideHeap_refl|]. exists 0, 0, [].
      rewrite stampDoc_nil. repeat split; try done; by rewrite (Hall u). 
    - by apply forOf_stampField_run. }
  unfold bind at 1 in Hrun.
  destruct (forOf fields _ w1) as [[e|[]] w2] eqn:Hfields;
    destruct (Hloop _ _ eq_refl) as ((Hb & Hd & Ha & Hc) & n & k & ops & Hops & Hh2 & Hall).
  { injection Hrun as <- <-. repeat split; try done.
    right. exists bytes, pages, (stampDoc ops k (freshDoc pages)).
    repeat split; try done. by exists n, k, ops. }
  destruct (Hall tt eq_refl) as [-> ->]. rewrite firstn_all in Hops.
  fold (stampedDoc pages fields ops) in Hh2.
  unfold bind at 1, save in Hrun. rewrite Hh2, lookup_last in Hrun.
  destruct (pdf_serialize lib _) as [content|] eqn:Hsave.
  2:{ injection Hrun as <- <-. repeat split; try done.
      right. exists bytes, pages, (stampedDoc pages fields ops).
      repeat split; try done. by apply stampedDoc_Stamped. }
  unfold bind, createObjectURL, click, revokeObjectURL in Hrun. simpl in Hrun.
  rewrite lookup_last in Hrun. injection Hrun as <- <-. simpl.
  repeat split; try done.
  exists bytes, pages, ops, content. rewrite Hd, Hb.
  repeat split; try done.
  rewrite <- (Nat.add_0_r (length (blobs w1))) at 1.
  by rewrite insert_app_r.
Qed.

(** The outer loop: one new document per row reached, in row order, each
    stamped from its own row; one download per row completed. *)
Lemma forOf_stampRow_run template fields W H rows w res w' :
  forOf rows (stampRow lib template fields W H) w = (res, w') ->
  alerts w' = alerts w /\ console w' = console w /\
  exists docs outs,
    heap w' = heap w ++ docs /\ downloads w' = downloads w ++ outs /\
    (forall i d, docs !! i = Some d ->
       exists row pages, rows !! i = Some row /\ Loaded lib template pages /\
         Stamped (succeeded res) pages W H row fields d) /\
    (forall i out, outs !! i = Some out ->
       exists row pages d, rows !! i = Some row /\ Loaded lib template pages /\
         docs !! i = Some d /\ Delivered lib pages W H fields row d out) /\
    match res with
    | inr _ => length outs = length rows
    | inl _ => length outs < length rows
    end.
Proof.
  revert w. induction rows as [|row rows IH]; intros w Hrun.
  - injection Hrun as <- <-. repeat split; try done.
    exists [], []. rewrite !app_nil_r. by repeat split.
  - rewrite forOf_cons in Hrun.
    destruct (stampRow _ _ _ _ _ _ _) as [[e|[]] w1] eqn:Hrow;
      apply stampRow_run in Hrow as (Ha & Hc & Hrow).
    + injection Hrun as <- <-. repeat split; try done.
      destruct Hrow as (Hd & _ & [Hh | (bytes & pages & d & Ht & Hp & Hst & Hh)]).
      * exists [], []. rewrite !app_nil_r. repeat split; try done.
        simpl; lia.
      * exists [d], []. rewrite app_nil_r. repeat split; try done; [|simpl; lia].
        intros [|i] d' Hi; [|done]. injection Hi as <-.
        exists row, pages. repeat split; try done. by exists bytes.
    + destruct Hrow as (bytes & pages & ops & content & Ht & Hp & Hops & Hh & Hs & Hd & _).
      destruct (IH _ Hrun) as (Ha' & Hc' & docs & outs & Hh' & Hd' & Hdocs & Houts & Hlen).
      split; [congruence|]. split; [congruence|].
      exists (stampedDoc pages fields ops :: docs), ((downloadName row, content) :: outs).
      split; [by rewrite Hh', Hh, <- app_assoc|].
      split; [by rewrite Hd', Hd, <- app_assoc|].
      split; [|split].
      * intros [|i] d Hi; [|by apply Hdocs].
        injection Hi as <-. exists row, pages. split; [done|].
        split; [by exists bytes|]. by apply stampedDoc_Stamped.
      * intros [|i] out Hi; [|by apply Houts].
        injection Hi as <-. exists row, pages, (stampedDoc pages fields ops).
        repeat split; try done; [by exists bytes|]. by exists ops.
      * destruct res; simpl; lia.
Qed.

(** The [try] block: either it throws before the first row, having
    created at most the document it measures, or it measures the first
    page of the template and runs the outer loop. *)
Lemma generatePDFs_try_run st w res w' :
  generatePDFs_try lib st w = (res, w') ->
  (exists e, res = inl e /\ sameOutsideHeap w w' /\
     (heap w' = heap w \/
      exists pages k, Loaded lib (templatePdfBytes st) pages /\
        heap w' = heap w ++ [stampDoc [] k (freshDoc pages)]))
  \/
  (exists p ps, Loaded lib (templatePdfBytes st) (p :: ps) /\
     forOf (csvData st)
       (stampRow lib (templatePdfBytes st) (templateFields st)
          (page_width p) (page_height p))
       (setHeap w (heap w ++ [stampDoc [] 1 (freshDoc (p :: ps))])) = (res, w')).
Proof.
  unfold generatePDFs_try. intros Hrun.
  destruct (templatePdfBytes st) as [bytes|] eqn:Ht.
  2:{ injection Hrun as <- <-. left. eexists. split; [done|].
      split; [apply sameOutsideHeap_refl|by left]. }
  unfold bind at 1, PDFDocument_load in Hrun.
  destruct (pdf_parse lib bytes) as [pages|] eqn:Hparse.
  2:{ injection Hrun as <- <-. left. eexists. split; [done|].
      split; [apply sameOutsideHeap_refl|by left]. }
  assert (Hl : Loaded lib (Some bytes) pages) by by exists bytes.
  unfold bind at 1, embedFont in Hrun.
  destruct (font_available lib Helvetica).
  2:{ injection Hrun as <- <-. left. eexists. split; [done|].
      split; [by repeat split|]. right. exists pages, 0.
      by rewrite stampDoc_nil. }
  simpl in Hrun. rewrite alter_last, addFont_stampDoc in Hrun.
  unfold bind at 1, getPages in Hrun. simpl in Hrun.
  rewrite lookup_last in Hrun.
  destruct pages as [|p ps].
  - injection Hrun as <- <-. left. eexists. split; [done|].
    split; [by repeat split|]. right. by exists [], 1.
  - unfold getSize, member, bind, ret in Hrun. simpl in Hrun.
    rewrite lookup_last in Hrun. simpl in Hrun.
    right. by exists p, ps.
Qed.

Lemma Loaded_inj template pages1 pages2 :
  Loaded lib template pages1 -> Loaded lib template pages2 -> pages1 = pages2.
Proof. intros (b1 & -> & H1) (b2 & [= <-] & H2). congruence. Qed.

(** The documents a run of the [try] block creates: first the one it
    measures, on which nothing is drawn, then one per row reached, each
    stamped from its own row and measured by the template's first page. *)
Lemma generatePDFs_try_heap st w res w' :
  generatePDFs_try lib st w = (res, w') ->
  exists docs,
    heap w' = heap w ++ docs /\
    (forall d, docs !! 0 = Some d ->
       exists pages k, Loaded lib (templatePdfBytes st) pages /\
         d = stampDoc [] k (freshDoc pages)) /\
    (forall i d, docs !! S i = Some d ->
       exists row p ps, csvData st !! i = Some row /\
         Loaded lib (templatePdfBytes st) (p :: ps) /\
         Stamped (succeeded res) (p :: ps) (page_width p) (page_height p) row
           (templateFields st) d).
Proof.
  intros Hrun.
  apply generatePDFs_try_run in Hrun
    as [(e & -> & _ & [Hh | (pages & k & Hl & Hh)]) | (p & ps & Hl & Hrun)].
  - exists []. rewrite app_nil_r. by repeat split.
  - exists [stampDoc [] k (freshDoc pages)]. repeat split; try done.
    intros d [= <-]. by exists pages, k.
  - apply forOf_stampRow_run in Hrun as (_ & _ & docs & outs & Hh & _ & Hdocs & _).
    exists (stampDoc [] 1 (freshDoc (p :: ps)) :: docs). split; [|split].
    + by rewrite Hh; simpl; rewrite <- app_assoc.
    + intros d [= <-]. by exists (p :: ps), 1.
    + intros i d Hi. destruct (Hdocs i d Hi) as (row & pages & Hrow & Hl' & Hst).
      rewrite (Loaded_inj _ _ _ Hl' Hl) in Hst. by exists row, p, ps.
Qed.

(** The downloads of a run of the [try] block: one per row completed, in
    row order, each the serialised document of its row. *)
Lemma generatePDFs_try_downloads st w res w' :
  generatePDFs_try lib st w = (res, w') ->
  alerts w' = alerts w /\ console w' = console w /\
  exists outs,
    downloads w' = downloads w ++ outs /\
    (forall i out, outs !! i = Some out ->
       exists row p ps d, csvData st !! i = Some row /\
         Loaded lib (templatePdfBytes st) (p :: ps) /\
         heap w' !! (length (heap w) + S i) = Some d /\
         Delivered lib (p :: ps) (page_width p) (page_height p)
           (templateFields st) row d out) /\
    match res with
    | inr _ => length outs = length (csvData st)
    | inl _ => length outs <= length (csvData st)
    end.
Proof.
  intros Hrun.
  apply generatePDFs_try_run in Hrun
    as [(e & -> & (_ & Hd & Ha & Hc) & _) | (p & ps & Hl & Hrun)].
  - repeat split; try done. exists []. rewrite app_nil_r.
    repeat split; try done. simpl; lia.
  - apply forOf_stampRow_run in Hrun
      as (Ha & Hc & docs & outs & Hh & Hd & _ & Houts & Hlen).
    repeat split; try done. exists outs. repeat split; try done.
    + intros i out Hi.
      destruct (Houts i out Hi) as (row & pages & d & Hrow & Hl' & Hdoc & Hdel).
      rewrite (Loaded_inj _ _ _ Hl' Hl) in Hdel.
      exists row, p, ps, d. repeat split; try done.
      rewrite Hh. simpl heap. rewrite <- app_assoc.
      rewrite lookup_app_r by lia.
      by replace (length (heap w) + S i - length (heap w)) with (S i) by lia.
    + destruct res; simpl in *; lia.
Qed.

End Runs.

(** ** Rounding in binary64

    Every operation on doubles rounds the exact result to the nearest
    double.  The fact needed below is that rounding is monotone at a
    double: the rounded value of a number that is not above a double is
    not above that double. *)

Module Rounding.
Import Binary64.

Local Open Scope Q_scope.

Lemma bpow_pos e : 0 < bpow e.
Proof. apply Qpower_0_lt. reflexivity. Qed.

Lemma bpow_add a b : bpow (a + b) == bpow a * bpow b.
Proof. apply Qpower_plus. discriminate. Qed.

Lemma bpow_succ e : bpow (e + 1) == 2 * bpow e.
Proof. rewrite bpow_add. unfold bpow at 2. simpl. ring. Qed.

Lemma bpow_le a b : (a <= b)%Z -> bpow a <= bpow b.
Proof. intros H. apply Qpower_le_compat_l; [exact H|]. discriminate. Qed.

Lemma bpow_lt a b : (a < b)%Z -> bpow a < bpow b.
Proof. intros H. apply Qpower_lt_compat_l; [exact H|]. reflexivity. Qed.

Lemma bpow_Z e : (0 <= e)%Z -> bpow e == inject_Z (2 ^ e).
Proof. intros H. unfold bpow. rewrite Zpower_Qpower by exact H. reflexivity. Qed.

Lemma dyadic_shift m e k : (0 <= k)%Z -> dyadic (m * 2 ^ k) e == dyadic m (e + k).
Proof.
  intros Hk. unfold dyadic. rewrite inject_Z_mult, bpow_add, (bpow_Z k Hk). ring.
Qed.

Lemma dyadic_le m1 m2 e : (m1 <= m2)%Z -> dyadic m1 e <= dyadic m2 e.
Proof.
  intros H. unfold dyadic. apply Qmult_le_compat_r.
  - rewrite <- Zle_Qle. exact H.
  - apply Qlt_le_weak, bpow_pos.
Qed.

Lemma dyadic_lt m1 m2 e : (m1 < m2)%Z -> dyadic m1 e < dyadic m2 e.
Proof.
  intros H. unfold dyadic. apply Qmult_lt_compat_r.
  - apply bpow_pos.
  - rewrite <- Zlt_Qlt. exact H.
Qed.


Lemma dyadic_lt_inv m1 m2 e : dyadic m1 e < dyadic m2 e -> (m1 < m2)%Z.
Proof.
  intros H. destruct (Z.lt_ge_cases m1 m2) as [Hlt|Hge]; [exact Hlt|].
  apply (dyadic_le _ _ e) in Hge. lra.
Qed.

Lemma dyadic_0 e : dyadic 0 e == 0.
Proof. unfold dyadic. ring. Qed.

Lemma dyadic_pos m e : (0 < m)%Z -> 0 < dyadic m e.
Proof. intros H. rewrite <- (dyadic_0 e). apply dyadic_lt, H. Qed.

Lemma dyadic_succ m e : dyadic (m + 1) e == dyadic m e + bpow e.
Proof. unfold dyadic. rewrite inject_Z_plus. ring. Qed.

Lemma dyadic_one e : dyadic 1 e == bpow e.
Proof. unfold dyadic. ring. Qed.

Lemma dyadic_pow k e : (0 <= k)%Z -> dyadic (2 ^ k) e == bpow (e + k).
Proof.
  intros Hk. rewrite <- (Z.mul_1_l (2 ^ k)), dyadic_shift by exact Hk.
  apply dyadic_one.
Qed.

(** *** Digits *)

Lemma digits2_size p : digits2_pos p = Pos.size p.
Proof. induction p; simpl; congruence. Qed.

Lemma digits2_bounds p :
  (2 ^ (Zpos (digits2_pos p) - 1) <= Zpos p < 2 ^ Zpos (digits2_pos p))%Z.
Proof.
  rewrite digits2_size. split.
  - pose proof (Pos.size_le p) as H.
    assert (H2 : (2 ^ Zpos (Pos.size p) <= 2 * Zpos p)%Z).
    { change (2 ^ Zpos (Pos.size p))%Z with (Z.pow_pos 2 (Pos.size p)).
      rewrite <- Pos2Z.inj_pow_pos. change (2 * Zpos p)%Z with (Zpos p~0).
      apply Pos2Z.pos_le_pos. exact H. }
    replace (Zpos (Pos.size p)) with (Zpos (Pos.size p) - 1 + 1)%Z in H2 by lia.
    rewrite Z.pow_add_r in H2 by lia. lia.
  - pose proof (Pos.size_gt p) as H.
    change (2 ^ Zpos (Pos.size p))%Z with (Z.pow_pos 2 (Pos.size p)).
    rewrite <- Pos2Z.inj_pow_pos. apply Pos2Z.pos_lt_pos. exact H.
Qed.

Lemma Zdigits2_nonneg m : (0 <= Zdigits2 m)%Z.
Proof. destruct m; simpl; lia. Qed.

Lemma Zdigits2_bounds m :
  (0 < m)%Z -> (2 ^ (Zdigits2 m - 1) <= m < 2 ^ Zdigits2 m)%Z.
Proof. destruct m as [|p|p]; try lia. intros _. apply digits2_bounds. Qed.

Lemma Zdigits2_pos m : (0 < m)%Z -> (0 < Zdigits2 m)%Z.
Proof. destruct m; simpl; lia. Qed.

(** A positive integer with [d] digits lies in [2^(d-1), 2^d). *)
Lemma dyadic_lower m e : (0 < m)%Z -> bpow (Zdigits2 m + e - 1) <= dyadic m e.
Proof.
  intros Hm. pose proof (Zdigits2_bounds m Hm) as [Hlo _].
  pose proof (Zdigits2_pos m Hm).
  replace (Zdigits2 m + e - 1)%Z with (e + (Zdigits2 m - 1))%Z by lia.
  rewrite <- dyadic_pow by lia. apply dyadic_le. exact Hlo.
Qed.

Lemma dyadic_upper m e : (0 <= m)%Z -> dyadic m e < bpow (Zdigits2 m + e).
Proof.
  intros Hm. destruct (Z.eq_dec m 0%Z) as [->|Hne].
  - unfold dyadic. simpl. rewrite Qmult_0_l. apply bpow_pos.
  - pose proof (Zdigits2_bounds m ltac:(lia)) as [_ Hhi].
    pose proof (Zdigits2_nonneg m).
    replace (Zdigits2 m + e)%Z with (e + Zdigits2 m)%Z by lia.
    rewrite <- dyadic_pow by lia. apply dyadic_lt. exact Hhi.
Qed.

(** If [m * 2^e < 2^k] then [m] has at most [k - e] digits. *)
Lemma digits_le_of_lt m e k :
  (0 < m)%Z -> dyadic m e < bpow k -> (Zdigits2 m + e <= k)%Z.
Proof.
  intros Hm Hlt. destruct (Z.le_gt_cases (Zdigits2 m + e) k) as [H|H]; [exact H|].
  pose proof (dyadic_lower m e Hm).
  assert (bpow k <= bpow (Zdigits2 m + e - 1)) by (apply bpow_le; lia).
  lra.
Qed.

(** *** Rounding *)

Abbreviation fexp := (SpecFloat.fexp prec emax).

Lemma fexp_spec e : fexp e = Z.max (e - 53) (-1074).
Proof. reflexivity. Qed.

Lemma dyadic_double m e : dyadic m (e + 1) == dyadic (2 * m) e.
Proof. unfold dyadic. rewrite bpow_succ, inject_Z_mult. ring. Qed.

Lemma shr_1_locates mrs e r : Locates mrs e r -> Locates (shr_1 mrs) (e + 1) r.
Proof.
  destruct mrs as [m rb sb]. unfold Locates. simpl shr_m. simpl shr_r. simpl shr_s.
  intros (Hm & Hlo & Hhi & Hex).
  assert (Hstep : forall m' (odd : bool),
            (0 <= m')%Z -> (m = 2 * m' + (if odd then 1 else 0))%Z ->
            (0 <= m')%Z /\
            dyadic m' (e + 1) <= r /\ r < dyadic (m' + 1) (e + 1) /\
            (r == dyadic m' (e + 1) -> odd = false /\ (rb || sb)%bool = false)).
  { intros m' odd Hm' Heq. split; [exact Hm'|]. rewrite !dyadic_double.
    assert (H1 : dyadic (2 * m') e <= dyadic m e) by (apply dyadic_le; destruct odd; lia).
    assert (H2 : dyadic (m + 1) e <= dyadic (2 * (m' + 1)) e)
      by (apply dyadic_le; destruct odd; lia).
    split; [lra|]. split; [lra|].
    intros Hr. destruct odd.
    - assert (H3 : dyadic (2 * m') e < dyadic m e) by (apply dyadic_lt; lia). lra.
    - assert (Hmm : (2 * m')%Z = m) by lia. rewrite Hmm in Hr.
      destruct (Hex Hr) as [-> ->]. split; reflexivity. }
  destruct m as [|[p|p|]|p]; simpl; try lia.
  - apply (Hstep 0%Z false); lia.
  - apply (Hstep (Zpos p) true); lia.
  - apply (Hstep (Zpos p) false); lia.
  - apply (Hstep 0%Z true); lia.
Qed.

Lemma iter_shr_1_locates n mrs e r :
  Locates mrs e r -> Locates (SpecFloat.iter_pos shr_1 n mrs) (e + Zpos n) r.
Proof.
  revert mrs e. induction n as [n IH|n IH|]; intros mrs e H; simpl.
  - replace (e + Zpos n~1)%Z with (e + 1 + Zpos n + Zpos n)%Z by lia.
    apply IH, IH, shr_1_locates, H.
  - replace (e + Zpos n~0)%Z with (e + Zpos n + Zpos n)%Z by lia.
    apply IH, IH, H.
  - apply shr_1_locates, H.
Qed.

Lemma shr_record_of_loc_m m l : shr_m (shr_record_of_loc m l) = m.
Proof. destruct l as [|[]]; reflexivity. Qed.

Lemma shr_fexp_locates m e l r :
  (0 <= m)%Z ->
  dyadic m e <= r -> r < dyadic (m + 1) e ->
  (r == dyadic m e -> l = loc_Exact) ->
  (e <= fexp (Zdigits2 m + e))%Z ->
  exists mrs,
    shr_fexp prec emax m e l = (mrs, fexp (Zdigits2 m + e)) /\
    Locates mrs (fexp (Zdigits2 m + e)) r.
Proof.
  intros Hm Hlo Hhi Hex Hn.
  assert (H0 : Locates (shr_record_of_loc m l) e r).
  { unfold Locates. rewrite shr_record_of_loc_m.
    split; [exact Hm|]. split; [exact Hlo|]. split; [exact Hhi|].
    intros Hr. rewrite (Hex Hr). split; reflexivity. }
  unfold shr_fexp, shr.
  destruct (fexp (Zdigits2 m + e) - e)%Z as [|n|n] eqn:Hd; try lia.
  - replace (fexp (Zdigits2 m + e)) with e by lia. eexists. split; [reflexivity|exact H0].
  - replace (fexp (Zdigits2 m + e)) with (e + Zpos n)%Z by lia.
    eexists. split; [reflexivity|]. apply iter_shr_1_locates, H0.
Qed.

Lemma round_nearest_even_cases mrs :
  round_nearest_even (shr_m mrs) (loc_of_shr_record mrs) = shr_m mrs \/
  (round_nearest_even (shr_m mrs) (loc_of_shr_record mrs) = (shr_m mrs + 1)%Z /\
   ~ (shr_r mrs = false /\ shr_s mrs = false)).
Proof.
  destruct mrs as [m [|] [|]]; simpl; try destruct (Z.even m); try (left; reflexivity);
    right; (split; [reflexivity|]); intros [? ?]; discriminate.
Qed.

(** The canonical exponent of a valid double, and its bound. *)
Lemma bounded_spec m e :
  bounded prec emax m e = true ->
  fexp (Zpos (digits2_pos m) + e) = e /\ (e <= 971)%Z.
Proof.
  unfold bounded, canonical_mantissa. intros H.
  apply andb_prop in H as [H1 H2].
  apply Z.eqb_eq in H1. apply Z.leb_le in H2. split; [exact H1|exact H2].
Qed.

(** A valid double is below [2^1024]. *)
Lemma bounded_lt_max m e :
  bounded prec emax m e = true -> dyadic (Zpos m) e < bpow 1024.
Proof.
  intros H. apply bounded_spec in H as [Hc He].
  pose proof (dyadic_upper (Zpos m) e ltac:(lia)) as Hu. simpl Zdigits2 in Hu.
  rewrite fexp_spec in Hc.
  assert (bpow (Zpos (digits2_pos m) + e) <= bpow 1024) by (apply bpow_le; lia).
  lra.
Qed.

(** Rounding never goes above a double that is above the number
    rounded. *)
Lemma binary_round_aux_le s m e l r mB eB :
  (0 <= m)%Z ->
  dyadic m e <= r -> r < dyadic (m + 1) e ->
  (r == dyadic m e -> l = loc_Exact) ->
  (e <= fexp (Zdigits2 m + e))%Z ->
  bounded prec emax mB eB = true ->
  r <= dyadic (Zpos mB) eB ->
  binary_round_aux prec emax s m e l = S754_zero s \/
  exists m2 e2,
    binary_round_aux prec emax s m e l = S754_finite s m2 e2 /\
    dyadic (Zpos m2) e2 <= dyadic (Zpos mB) eB.
Proof.
  intros Hm Hlo Hhi Hex Hn HB HrB.
  pose proof (bounded_lt_max _ _ HB) as HBmax.
  apply bounded_spec in HB as [HBc HBe].
  set (d := Zdigits2 m) in *. set (e1 := fexp (d + e)) in *.
  destruct (shr_fexp_locates m e l r Hm Hlo Hhi Hex Hn)
    as (mrs1 & Hshr1 & Hm1 & Hlo1 & Hhi1 & Hex1).
  fold d in Hshr1, Hlo1, Hhi1, Hex1. fold e1 in Hshr1, Hlo1, Hhi1, Hex1.
  unfold binary_round_aux. rewrite Hshr1.
  set (m1 := round_nearest_even (shr_m mrs1) (loc_of_shr_record mrs1)).
  (* the rounded mantissa is still below [B] *)
  assert (Hm1B : dyadic m1 e1 <= dyadic (Zpos mB) eB /\ (shr_m mrs1 <= m1)%Z).
  { destruct (round_nearest_even_cases mrs1) as [Heq | [Heq Hinex]]; fold m1 in Heq;
      rewrite Heq.
    - split; [lra|lia].
    - split; [|lia].
      assert (Hgt : dyadic (shr_m mrs1) e1 < r).
      { destruct (Qlt_le_dec (dyadic (shr_m mrs1) e1) r) as [H|H]; [exact H|].
        exfalso. apply Hinex, Hex1. lra. }
      destruct (Z.le_gt_cases e1 eB) as [He|He].
      + replace eB with (e1 + (eB - e1))%Z by lia.
        rewrite <- dyadic_shift by lia. apply dyadic_le.
        assert (Hlt : dyadic (shr_m mrs1) e1 < dyadic (Zpos mB * 2 ^ (eB - e1)) e1).
        { rewrite dyadic_shift by lia. replace (e1 + (eB - e1))%Z with eB by lia. lra. }
        apply dyadic_lt_inv in Hlt. lia.
      + exfalso.
        assert (Hmpos : (0 < m)%Z).
        { destruct (Z.eq_dec m 0%Z) as [->|]; [|lia].
          subst e1 d. simpl Zdigits2 in *. rewrite fexp_spec in *. lia. }
        pose proof (dyadic_lower m e Hmpos) as Hlow. fold d in Hlow.
        pose proof (dyadic_upper (Zpos mB) eB ltac:(lia)) as Hup. simpl Zdigits2 in Hup.
        assert (bpow (Zpos (digits2_pos mB) + eB) <= bpow (d + e - 1)).
        { apply bpow_le. subst e1. rewrite fexp_spec in *. lia. }
        lra. }
  destruct Hm1B as [Hm1B Hm1ge].
  assert (Hm1nn : (0 <= m1)%Z) by lia.
  (* the second shift *)
  destruct (Z.le_gt_cases e1 (fexp (Zdigits2 m1 + e1))) as [Hn2|Hn2].
  - destruct (shr_fexp_locates m1 e1 loc_Exact (dyadic m1 e1) Hm1nn) as
      (mrs2 & Hshr2 & Hm2 & Hlo2 & Hhi2 & _);
      [lra|apply dyadic_lt; lia|reflexivity|exact Hn2|].
    rewrite Hshr2.
    destruct (shr_m mrs2) as [|m2|m2] eqn:Hm2e; [left; reflexivity| |lia].
    right. set (e2 := fexp (Zdigits2 m1 + e1)) in *.
    assert (Hle : dyadic (Zpos m2) e2 <= dyadic (Zpos mB) eB) by lra.
    destruct (Z.leb_spec e2 (emax - prec)) as [_|Hinf].
    + exists m2, e2. split; [reflexivity|exact Hle].
    + exfalso. change (emax - prec)%Z with 971%Z in Hinf.
      assert (Hm1pos : (0 < m1)%Z).
      { destruct (Z.eq_dec m1 0%Z) as [H0|]; [|lia].
        rewrite H0, dyadic_0 in Hlo2.
        pose proof (dyadic_pos (Zpos m2) e2 ltac:(lia)). lra. }
      pose proof (dyadic_lower m1 e1 Hm1pos) as Hlow.
      assert (bpow 1024 <= bpow (Zdigits2 m1 + e1 - 1)).
      { apply bpow_le. subst e2. rewrite fexp_spec in Hinf. lia. }
      lra.
  - assert (Hshr2 : shr_fexp prec emax m1 e1 loc_Exact
                    = (shr_record_of_loc m1 loc_Exact, e1)).
    { unfold shr_fexp, shr.
      destruct (fexp (Zdigits2 m1 + e1) - e1)%Z eqn:Hd; try lia; reflexivity. }
    rewrite Hshr2. simpl shr_m.
    destruct m1 as [|m2|m2] eqn:Hm1e; [left; reflexivity| |lia].
    right.
    destruct (Z.leb_spec e1 (emax - prec)) as [_|Hinf].
    + exists m2, e1. split; [reflexivity|exact Hm1B].
    + exfalso. change (emax - prec)%Z with 971%Z in Hinf.
      assert (Hmpos : (0 < m)%Z).
      { destruct (Z.eq_dec m 0%Z) as [->|]; [|lia].
        subst e1 d. simpl Zdigits2 in *. rewrite fexp_spec in *. lia. }
      pose proof (dyadic_lower m e Hmpos) as Hlow. fold d in Hlow.
      assert (He1 : e1 = (d + e - 53)%Z) by (subst e1; rewrite fexp_spec in *; lia).
      (* the mantissa after the first shift has 53 digits *)
      assert (Hbig : (2 ^ 52 <= shr_m mrs1)%Z).
      { assert (Hlt : dyadic (2 ^ 52) e1 < dyadic (shr_m mrs1 + 1) e1).
        { rewrite dyadic_pow by lia. replace (e1 + 52)%Z with (d + e - 1)%Z by lia. lra. }
        apply dyadic_lt_inv in Hlt. lia. }
      assert (Hge : dyadic (2 ^ 52) e1 <= dyadic (Zpos m2) e1) by (apply dyadic_le; lia).
      rewrite dyadic_pow in Hge by lia.
      assert (bpow 1024 <= bpow (e1 + 52)) by (apply bpow_le; lia).
      lra.
Qed.

(** *** Alignment and the operations *)

Lemma iter_xO m d : Zpos (Pos.iter xO m d) = (Zpos m * 2 ^ Zpos d)%Z.
Proof.
  induction d as [|d IH] using Pos.peano_ind.
  - simpl. lia.
  - rewrite Pos.iter_succ, Pos2Z.inj_xO, IH, Pos2Z.inj_succ, Z.pow_succ_r by lia. lia.
Qed.

Lemma digits2_xO m d :
  Zpos (digits2_pos (Pos.iter xO m d)) = (Zpos (digits2_pos m) + Zpos d)%Z.
Proof.
  induction d as [|d IH] using Pos.peano_ind.
  - simpl. lia.
  - rewrite Pos.iter_succ. simpl digits2_pos. rewrite Pos2Z.inj_succ, IH. lia.
Qed.

Lemma shl_align_spec m e e' :
  exists m' e'',
    shl_align m e e' = (m', e'') /\
    dyadic (Zpos m') e'' == dyadic (Zpos m) e /\
    (Zpos (digits2_pos m') + e'' = Zpos (digits2_pos m) + e)%Z /\
    e'' = Z.min e e'.
Proof.
  unfold shl_align. destruct (e' - e)%Z as [|d|d] eqn:Hd.
  - exists m, e. repeat split; try reflexivity. lia.
  - exists m, e. repeat split; try reflexivity. lia.
  - exists (Pos.iter xO m d), e'. split; [reflexivity|].
    rewrite iter_xO, digits2_xO. split; [|split; lia].
    rewrite dyadic_shift by lia. replace (e' + Zpos d)%Z with e by lia. reflexivity.
Qed.

(** Rounding a positive integer multiple of [2^e]. *)
Lemma binary_round_le m e mB eB :
  bounded prec emax mB eB = true ->
  dyadic (Zpos m) e <= dyadic (Zpos mB) eB ->
  Below (dyadic (Zpos mB) eB) (binary_round prec emax false m e).
Proof.
  intros HB Hle. unfold binary_round.
  destruct (shl_align_spec m e (fexp (Zpos (digits2_pos m) + e)))
    as (mz & ez & -> & Hval & Hdig & Hez).
  destruct (binary_round_aux_le false (Zpos mz) ez loc_Exact (dyadic (Zpos mz) ez) mB eB)
    as [Hz | (m2 & e2 & Hf & Hb)].
  - lia.
  - lra.
  - apply dyadic_lt. lia.
  - reflexivity.
  - simpl Zdigits2. rewrite Hdig. lia.
  - exact HB.
  - lra.
  - left. eexists. exact Hz.
  - right. exists m2, e2. split; [exact Hf|exact Hb].
Qed.

Lemma dyadic_sub a b e : dyadic (a - b) e == dyadic a e - dyadic b e.
Proof. unfold dyadic, Z.sub. rewrite inject_Z_plus, inject_Z_opp. ring. Qed.

Lemma dyadic_opp a e : dyadic (- a) e == - dyadic a e.
Proof. unfold dyadic. rewrite inject_Z_opp. ring. Qed.

Lemma dyadic_cond_Zopp s m e :
  dyadic (cond_Zopp s (Zpos m)) e == SF2Q (S754_finite s m e).
Proof. destruct s; cbn [SF2Q cond_Zopp]; [apply (dyadic_opp (Zpos m))|reflexivity]. Qed.

(** The difference of two doubles, the first the greater, rounds to a
    double that is not negative and not above any double that is above
    the difference. *)
Lemma SFsub_below x y mB eB :
  SFfinite x = true -> SFfinite y = true ->
  SF2Q y < SF2Q x ->
  bounded prec emax mB eB = true ->
  SF2Q x - SF2Q y <= dyadic (Zpos mB) eB ->
  Below (dyadic (Zpos mB) eB) (SF64sub x y).
Proof.
  intros Hx Hy Hlt HB Hle.
  destruct x as [sx| | |sx mx ex]; try discriminate;
    destruct y as [sy| | |sy my ey]; try discriminate; unfold SF64sub, SFsub.
  - cbn [SF2Q] in Hlt, Hle. pose proof (dyadic_pos (Zpos my) ey ltac:(lia)).
    destruct sy; [|lra]. right. exists my, ey. split; [reflexivity|lra].
  - cbn [SF2Q] in Hlt, Hle. pose proof (dyadic_pos (Zpos mx) ex ltac:(lia)).
    destruct sx; [lra|]. right. exists mx, ex. split; [reflexivity|lra].
  - destruct (shl_align_spec mx ex (Z.min ex ey)) as (mx' & ex' & Hax & Hvx & _ & Hex).
    destruct (shl_align_spec my ey (Z.min ex ey)) as (my' & ey' & Hay & Hvy & _ & Hey).
    rewrite Hax, Hay. simpl fst.
    assert (Hex' : ex' = Z.min ex ey) by lia.
    assert (Hey' : ey' = Z.min ex ey) by lia.
    clear Hex Hey. subst ex' ey'. set (ez := Z.min ex ey) in *.
    set (M := (cond_Zopp sx (Zpos mx') - cond_Zopp sy (Zpos my'))%Z).
    assert (HM : dyadic M ez == SF2Q (S754_finite sx mx ex) - SF2Q (S754_finite sy my ey)).
    { unfold M. rewrite dyadic_sub, !dyadic_cond_Zopp. cbn [SF2Q].
      destruct sx, sy; lra. }
    assert (HMpos : (0 < M)%Z).
    { apply (dyadic_lt_inv _ _ ez). rewrite dyadic_0. lra. }
    destruct M as [|pM|pM]; try lia. simpl binary_normalize.
    apply binary_round_le; [exact HB|]. lra.
Qed.

(** The quotient of two positive doubles, as the division reads it
    before rounding. *)
Lemma SFdiv_core_binary_spec mx ex my ey :
  let r := dyadic (Zpos mx) ex / dyadic (Zpos my) ey in
  exists q e l,
    SFdiv_core_binary prec emax (Zpos mx) ex (Zpos my) ey = (q, e, l) /\
    (0 <= q)%Z /\
    dyadic q e <= r /\ r < dyadic (q + 1) e /\
    (r == dyadic q e -> l = loc_Exact) /\
    (e <= fexp (Zdigits2 q + e))%Z.
Proof.
  intros r. unfold SFdiv_core_binary.
  set (d1 := Zdigits2 (Zpos mx)). set (d2 := Zdigits2 (Zpos my)).
  set (e' := Z.min (fexp (d1 + ex - (d2 + ey))) (ex - ey)).
  set (s := (ex - ey - e')%Z).
  assert (Hs : (0 <= s)%Z) by (unfold s, e'; lia).
  set (m' := match s with
             | Zpos _ => Z.shiftl (Zpos mx) s
             | Z0 => Zpos mx
             | Zneg _ => 0%Z
             end).
  assert (Hm' : m' = (Zpos mx * 2 ^ s)%Z).
  { unfold m'. destruct s as [|p|p] eqn:Hsp; try lia.
    apply Z.shiftl_mul_pow2. lia. }
  clearbody m'.
  pose proof (Z_div_mod m' (Zpos my) ltac:(lia)) as Hdiv.
  destruct (Z.div_eucl m' (Zpos my)) as [q rem]. destruct Hdiv as [Hdiv Hrem].
  assert (Hq : (0 <= q)%Z).
  { assert (0 <= m')%Z by (rewrite Hm'; apply Z.mul_nonneg_nonneg; [lia|apply Z.pow_nonneg; lia]).
    nia. }
  exists q, e', (new_location (Zpos my) rem). split; [reflexivity|].
  split; [exact Hq|].
  (* the quotient, as [(q + rem / my) * 2^e'] *)
  assert (Hr : r == (inject_Z q + inject_Z rem / inject_Z (Zpos my)) * bpow e').
  { unfold r.
    assert (Hnum : dyadic (Zpos mx) ex == dyadic m' (e' + ey)).
    { rewrite Hm', dyadic_shift by exact Hs.
      replace (e' + ey + s)%Z with ex by (unfold s; lia). reflexivity. }
    rewrite Hnum. unfold dyadic. rewrite bpow_add, Hdiv, inject_Z_plus, inject_Z_mult.
    pose proof (bpow_pos ey). pose proof (bpow_pos e').
    assert (0 < inject_Z (Zpos my)) by (rewrite <- (Zlt_Qlt 0); lia).
    field. split; lra. }
  assert (Hfrac : 0 <= inject_Z rem / inject_Z (Zpos my) < 1).
  { assert (0 < inject_Z (Zpos my)) by (rewrite <- (Zlt_Qlt 0); lia).
    assert (0 <= inject_Z rem) by (rewrite <- (Zle_Qle 0); lia).
    assert (inject_Z rem < inject_Z (Zpos my)) by (rewrite <- Zlt_Qlt; lia).
    split.
    - apply Qle_shift_div_l; lra.
    - apply Qlt_shift_div_r; lra. }
  pose proof (bpow_pos e') as Hb.
  set (t := inject_Z rem / inject_Z (Zpos my)) in *.
  assert (Hlo : dyadic q e' <= r).
  { rewrite Hr. unfold dyadic. apply Qmult_le_compat_r; lra. }
  assert (Hhi : r < dyadic (q + 1) e').
  { rewrite Hr. unfold dyadic. rewrite inject_Z_plus.
    apply Qmult_lt_compat_r; [lra|]. change (inject_Z 1) with 1. lra. }
  split; [exact Hlo|]. split; [exact Hhi|]. split.
  - intros Hex. rewrite Hr in Hex. unfold dyadic in Hex.
    assert (Ht : t == 0).
    { assert (Hnz : ~ bpow e' == 0) by (intros H0; lra).
      apply (proj1 (Qmult_inj_r _ _ _ Hnz)) in Hex. lra. }
    assert (Hrem0 : rem = 0%Z).
    { destruct (Z.eq_dec rem 0%Z) as [H0|Hne]; [exact H0|]. exfalso.
      assert (0 < inject_Z rem) by (rewrite <- (Zlt_Qlt 0); lia).
      assert (0 < inject_Z (Zpos my)) by (rewrite <- (Zlt_Qlt 0); lia).
      assert (0 < t) by (unfold t; apply Qlt_shift_div_l; lra).
      lra. }
    subst rem. unfold new_location, new_location_even, new_location_odd.
    destruct (Z.even (Zpos my)); reflexivity.
  - (* the quotient has enough digits *)
    assert (Hdig : (d1 + s - d2 <= Zdigits2 q)%Z).
    { destruct (Z.le_gt_cases (d1 + s - d2) 0) as [H0|Hk].
      - pose proof (Zdigits2_nonneg q). lia.
      - pose proof (digits2_bounds mx) as [Hmx _].
        pose proof (digits2_bounds my) as [_ Hmy].
        fold (Zdigits2 (Zpos mx)) in Hmx. fold d1 in Hmx.
        fold (Zdigits2 (Zpos my)) in Hmy. fold d2 in Hmy.
        assert (H1 : (2 ^ (d1 - 1) * 2 ^ s <= m')%Z).
        { rewrite Hm'. apply Z.mul_le_mono_nonneg_r; [apply Z.pow_nonneg; lia|exact Hmx]. }
        assert (Hd1 : (0 < d1)%Z) by (unfold d1; simpl; lia).
        assert (Hd2 : (0 < d2)%Z) by (unfold d2; simpl; lia).
        rewrite <- Z.pow_add_r in H1 by lia.
        replace (d1 - 1 + s)%Z with (d2 + (d1 + s - d2 - 1))%Z in H1 by lia.
        rewrite Z.pow_add_r in H1 by lia.
        set (K := (2 ^ (d1 + s - d2 - 1))%Z) in *.
        assert (HK : (0 < K)%Z) by (apply Z.pow_pos_nonneg; lia).
        assert (HqK : (K <= q)%Z) by nia.
        assert (Hqpos : (0 < q)%Z) by lia.
        pose proof (Zdigits2_bounds q Hqpos) as [_ Hqhi].
        assert (Hlt : (2 ^ (d1 + s - d2 - 1) < 2 ^ Zdigits2 q)%Z) by (fold K; lia).
        apply Z.pow_lt_mono_r_iff in Hlt; [lia|lia|apply Zdigits2_nonneg]. }
    assert (Hmono : (fexp (d1 + ex - (d2 + ey)) <= fexp (Zdigits2 q + e'))%Z).
    { rewrite !fexp_spec. unfold s in Hdig. lia. }
    unfold e' at 1. lia.
Qed.

(** The double 1. *)
Lemma dyadic_one_53 : dyadic (Zpos 4503599627370496) (-52) == 1.
Proof. vm_compute. reflexivity. Qed.

(** A positive double divided by one that is not smaller rounds to a
    double between 0 and 1. *)
Lemma SFdiv_below x my ey :
  Below (dyadic (Zpos my) ey) x ->
  Below 1 (SF64div x (S754_finite false my ey)).
Proof.
  intros [[s ->] | (mx & ex & -> & Hle)]; unfold SF64div, SFdiv.
  - left. eexists. reflexivity.
  - destruct (SFdiv_core_binary_spec mx ex my ey)
      as (q & e & l & -> & Hq & Hlo & Hhi & Hex & Hn).
    pose proof (dyadic_pos (Zpos my) ey ltac:(lia)) as Hy.
    pose proof (dyadic_pos (Zpos mx) ex ltac:(lia)) as Hx.
    destruct (binary_round_aux_le (xorb false false) q e l
                (dyadic (Zpos mx) ex / dyadic (Zpos my) ey)
                4503599627370496%positive (-52)%Z Hq Hlo Hhi Hex Hn)
      as [Hz | (m2 & e2 & Hf & Hb)].
    + reflexivity.
    + rewrite dyadic_one_53. apply Qle_shift_div_r; lra.
    + left. eexists. exact Hz.
    + right. exists m2, e2. split; [exact Hf|]. rewrite dyadic_one_53 in Hb. exact Hb.
Qed.

Lemma dyadic_mul a b e1 e2 : dyadic (a * b) (e1 + e2) == dyadic a e1 * dyadic b e2.
Proof. unfold dyadic. rewrite inject_Z_mult, bpow_add. ring. Qed.

(** A double between 0 and 1 times a normal positive double rounds to a
    double between 0 and that one. *)
Lemma SFmul_below x my ey :
  bounded prec emax my ey = true ->
  (2 ^ 52 <= Zpos my)%Z ->
  Below 1 x ->
  Below (dyadic (Zpos my) ey) (SF64mul x (S754_finite false my ey)).
Proof.
  intros HB Hnormal [[s ->] | (mx & ex & -> & Hle)]; unfold SF64mul, SFmul.
  - left. eexists. reflexivity.
  - pose proof (dyadic_pos (Zpos my) ey ltac:(lia)) as Hy.
    pose proof (dyadic_pos (Zpos mx) ex ltac:(lia)) as Hx.
    assert (Hval : dyadic (Zpos (mx * my)) (ex + ey)
                   == dyadic (Zpos mx) ex * dyadic (Zpos my) ey).
    { rewrite Pos2Z.inj_mul. apply dyadic_mul. }
    destruct (binary_round_aux_le (xorb false false) (Zpos (mx * my)) (ex + ey)
                loc_Exact (dyadic (Zpos (mx * my)) (ex + ey)) my ey)
      as [Hz | (m2 & e2 & Hf & Hb)].
    + lia.
    + lra.
    + apply dyadic_lt. lia.
    + reflexivity.
    + assert (Hbig : (2 ^ 52 <= Zpos (mx * my))%Z) by nia.
      pose proof (Zdigits2_bounds (Zpos (mx * my)) ltac:(lia)) as [_ Hhi].
      assert (Hlt : (2 ^ 52 < 2 ^ Zdigits2 (Zpos (mx * my)))%Z) by lia.
      apply Z.pow_lt_mono_r_iff in Hlt; [|lia|apply Zdigits2_nonneg].
      rewrite fexp_spec. lia.
    + exact HB.
    + rewrite Hval.
      assert (dyadic (Zpos mx) ex * dyadic (Zpos my) ey <= 1 * dyadic (Zpos my) ey)
        by (apply Qmult_le_compat_r; lra).
      lra.
    + left. eexists. exact Hz.
    + right. exists m2, e2. split; [exact Hf|exact Hb].
Qed.


(** *** Primitive doubles *)

Lemma is_finite_SFfinite x : is_finite x = true -> SFfinite (Prim2SF x) = true.
Proof.
  unfold is_finite, is_nan, is_infinity.
  rewrite !FloatAxioms.eqb_spec, FloatAxioms.abs_spec.
  destruct (Prim2SF x) as [s|s| |s m e]; try reflexivity.
  - destruct s; vm_compute; discriminate.
  - vm_compute. discriminate.
Qed.

Lemma Prim2SF_bounded x s m e :
  Prim2SF x = S754_finite s m e -> bounded prec emax m e = true.
Proof. intros H. pose proof (Prim2SF_valid x) as Hv. rewrite H in Hv. exact Hv. Qed.

(** A positive finite double. *)
Lemma positive_finite x :
  is_finite x = true -> 0 < F2Q x ->
  exists m e, Prim2SF x = S754_finite false m e.
Proof.
  intros Hf Hpos. apply is_finite_SFfinite in Hf. unfold F2Q in Hpos.
  destruct (Prim2SF x) as [s|s| |s m e]; try discriminate.
  - cbn [SF2Q] in Hpos. pose proof (dyadic_pos (Zpos m) e ltac:(lia)).
    destruct s; [lra|]. exists m, e. reflexivity.
Qed.

(** The fraction of a length, in per cent, as the program computes it:
    for a point strictly inside an interval the three roundings of
    [((c - l) / w) * 100] never leave the range from 0 to 100. *)
Lemma percentage_below (c l w : float) :
  is_finite c = true -> is_finite l = true -> is_finite w = true ->
  F2Q l < F2Q c -> F2Q c < F2Q l + F2Q w ->
  Below (dyadic (Zpos 7036874417766400) (-46)) (Prim2SF ((c - l) / w * 100)).
Proof.
  intros Hc Hl Hw Hlo Hhi.
  destruct (positive_finite w Hw ltac:(lra)) as (mw & ew & HSw).
  pose proof (Prim2SF_bounded _ _ _ _ HSw) as HBw.
  assert (Hd : Below (dyadic (Zpos mw) ew) (Prim2SF (c - l))).
  { rewrite FloatAxioms.sub_spec. apply SFsub_below.
    - apply is_finite_SFfinite, Hc.
    - apply is_finite_SFfinite, Hl.
    - exact Hlo.
    - exact HBw.
    - unfold F2Q in Hhi. rewrite HSw in Hhi. cbn [SF2Q] in Hhi. unfold F2Q in Hlo. lra. }
  assert (Hq : Below 1 (Prim2SF ((c - l) / w))).
  { rewrite FloatAxioms.div_spec, HSw. apply SFdiv_below, Hd. }
  assert (H100 : Prim2SF 100 = S754_finite false 7036874417766400 (-46)) by reflexivity.
  rewrite FloatAxioms.mul_spec, H100.
  apply SFmul_below; [reflexivity|vm_compute; discriminate|exact Hq].
Qed.


(** *** Operations that do not give [NaN] *)

Lemma shr_1_nonneg mrs : (0 <= shr_m mrs)%Z -> (0 <= shr_m (shr_1 mrs))%Z.
Proof. destruct mrs as [[|[p|p|]|p] rb sb]; simpl; lia. Qed.

Lemma iter_shr_1_nonneg n mrs :
  (0 <= shr_m mrs)%Z -> (0 <= shr_m (SpecFloat.iter_pos shr_1 n mrs))%Z.
Proof.
  revert mrs. induction n as [n IH|n IH|]; intros mrs H; simpl.
  - apply IH, IH, shr_1_nonneg, H.
  - apply IH, IH, H.
  - apply shr_1_nonneg, H.
Qed.

Lemma shr_fexp_nonneg m e l :
  (0 <= m)%Z -> (0 <= shr_m (shr_fexp prec emax m e l).1)%Z.
Proof.
  intros Hm. unfold shr_fexp, shr.
  destruct (fexp (Zdigits2 m + e) - e)%Z; simpl; rewrite ?shr_record_of_loc_m; try exact Hm.
  apply iter_shr_1_nonneg. rewrite shr_record_of_loc_m. exact Hm.
Qed.

Lemma round_nearest_even_nonneg m l :
  (0 <= m)%Z -> (0 <= round_nearest_even m l)%Z.
Proof. destruct l as [|[]]; simpl; try destruct (Z.even m); lia. Qed.

Lemma binary_round_aux_not_nan s m e l :
  (0 <= m)%Z -> binary_round_aux prec emax s m e l <> S754_nan.
Proof.
  intros Hm. unfold binary_round_aux.
  pose proof (shr_fexp_nonneg m e l Hm) as H1.
  destruct (shr_fexp prec emax m e l) as [mrs1 e1]. simpl in H1.
  pose proof (shr_fexp_nonneg _ e1 loc_Exact
                (round_nearest_even_nonneg _ (loc_of_shr_record mrs1) H1)) as H2.
  destruct (shr_fexp prec emax _ e1 loc_Exact) as [mrs2 e2]. simpl in H2.
  destruct (shr_m mrs2); try lia; [discriminate|].
  destruct (e2 <=? emax - prec)%Z; discriminate.
Qed.

Lemma binary_normalize_not_nan m e s : binary_normalize prec emax m e s <> S754_nan.
Proof.
  destruct m as [|p|p]; simpl; [discriminate| |]; unfold binary_round;
    destruct (shl_align _ _ _) as [mz ez]; apply binary_round_aux_not_nan; lia.
Qed.

(** The product of two finite doubles is not [NaN]. *)
Lemma SFmul_not_nan x y :
  SFfinite x = true -> SFfinite y = true -> SF64mul x y <> S754_nan.
Proof.
  destruct x as [sx| | |sx mx ex]; try discriminate;
    destruct y as [sy| | |sy my ey]; try discriminate; intros _ _;
    unfold SF64mul, SFmul; try discriminate.
  apply binary_round_aux_not_nan. lia.
Qed.

(** A finite double minus a double that is not [NaN] is not [NaN]. *)
Lemma SFsub_not_nan x y :
  SFfinite x = true -> y <> S754_nan -> SF64sub x y <> S754_nan.
Proof.
  destruct x as [sx| | |sx mx ex]; try discriminate;
    destruct y as [sy|sy| |sy my ey]; intros _ Hy; try (exfalso; apply Hy; reflexivity);
    unfold SF64sub, SFsub; try discriminate.
  - destruct sx, sy; discriminate.
  - apply binary_normalize_not_nan.
Qed.

Lemma Below_finite B f : Below B f -> SFfinite f = true.
Proof. intros [[s ->] | (m & e & -> & _)]; reflexivity. Qed.

Lemma SFeqb_refl f : f <> S754_nan -> SFeqb f f = true.
Proof.
  unfold SFeqb, SFcompare. destruct f as [s|s| |s m e]; intros H; try reflexivity.
  - destruct s; reflexivity.
  - exfalso. apply H. reflexivity.
  - rewrite Z.compare_refl.
    change (Pos.compare_cont Eq m m) with (Pos.compare m m).
    rewrite Pos.compare_refl. destruct s; reflexivity.
Qed.

Lemma is_nan_false x : Prim2SF x <> S754_nan -> is_nan x = false.
Proof.
  intros H. unfold is_nan. rewrite FloatAxioms.eqb_spec, (SFeqb_refl _ H). reflexivity.
Qed.

(** A percentage between 0 and 100, scaled to a finite length, is not
    [NaN], and neither is a finite length minus the scaled
    percentage. *)
Lemma scaled_percentage_not_nan (x len : float) :
  Below (dyadic (Zpos 7036874417766400) (-46)) (Prim2SF x) ->
  is_finite len = true ->
  is_nan (x / 100 * len) = false /\ is_nan (len - x / 100 * len) = false.
Proof.
  intros Hx Hlen. apply is_finite_SFfinite in Hlen.
  assert (H100 : Prim2SF 100 = S754_finite false 7036874417766400 (-46)) by reflexivity.
  assert (Ht : Below 1 (Prim2SF (x / 100))).
  { rewrite FloatAxioms.div_spec, H100. apply SFdiv_below, Hx. }
  assert (Hu : Prim2SF (x / 100 * len) <> S754_nan).
  { rewrite FloatAxioms.mul_spec. apply SFmul_not_nan; [|exact Hlen].
    eapply Below_finite, Ht. }
  split; [apply is_nan_false, Hu|].
  apply is_nan_false. rewrite FloatAxioms.sub_spec.
  apply SFsub_not_nan; [exact Hlen|exact Hu].
Qed.

End Rounding.

(** ** The field registry *)

Section Registry.
Context {num : Type} {N : JsNumber num}.

(** C8. Outside template mode a click leaves the field list as it was:
    the container carries no click handler, and the handler itself
    returns at once. *)
Theorem click_outside_template_mode (st : State num) (event : MouseEvent num)
  (answer : option string) :
  isTemplateMode st = false ->
  templateFields (clickPage st event answer) = templateFields st /\
  templateFields (handleTemplateFieldAdd st event answer) = templateFields st.
Proof.
  intros Hmode. unfold clickPage, onClick, handleTemplateFieldAdd.
  rewrite Hmode. simpl. by destruct (pdfFile st).
Qed.

(** C9. A file dropped outside template mode leaves the stored template
    bytes as they were; a file dropped in template mode replaces them
    with its own bytes. *)
Theorem upload_keeps_template_outside_template_mode (st : State num)
  (acceptedFiles : list File) (w : World num) :
  exists st' w',
    onDrop st acceptedFiles w = (inr st', w') /\
    (isTemplateMode st = false -> templatePdfBytes st' = templatePdfBytes st) /\
    (isTemplateMode st = true ->
     forall file, head acceptedFiles = Some file ->
       templatePdfBytes st' = Some (file_bytes file)).
Proof.
  unfold onDrop. destruct acceptedFiles as [|file rest].
  - exists st, w. by repeat split.
  - unfold bind, createObjectURL, ret.
    destruct (isTemplateMode st) eqn:Hmode; eexists _, _; (split; [done|]);
      split; try done.
    by intros _ _ [= <-].
Qed.

End Registry.




Lemma click_outside_template_mode_witness :
  templateFields (clickPage Sample.viewing Sample.pointer (Some "email"))
    = [Sample.field 10 10 "name"].
Proof.
  apply (click_outside_template_mode Sample.viewing Sample.pointer (Some "email")).
  reflexivity.
Defined.

(** ** The batch stamper: preconditions and failures *)

Section Failures.
Context {num : Type} {N : JsNumber num} (lib : PdfLib num).
Local Open Scope js_scope.

Local Abbreviation World := (World num).

Lemma generatePDFs_try_measure (st : State num) w :
  generatePDFs_try lib st w =
    bind (measureTemplate lib (templatePdfBytes st))
      (fun size =>
         forOf (csvData st)
           (stampRow lib (templatePdfBytes st) (templateFields st) size.1 size.2)) w.
Proof.
  unfold generatePDFs_try, measureTemplate, bind.
  destruct (PDFDocument_load _ _ _) as [[e|pdfDoc] w1]; [done|].
  destruct (embedFont _ _ _ _) as [[e|font] w2]; [done|].
  destruct (getPages _ _) as [[e|pages] w3]; [done|].
  by destruct (getSize _ _) as [[e|[W H]] w4].
Qed.



(** C3 (as amended). With no template buffer stored, or no row, or no
    field, [generatePDFs] shows the precondition notice and does nothing
    else: no document is loaded, nothing is drawn, nothing is
    downloaded. *)
Theorem generatePDFs_precondition_failure (st : State num) (w : World) :
  templatePdfBytes st = None \/ csvData st = [] \/ templateFields st = [] ->
  generatePDFs lib st w = (inr tt, alerted w preconditionNotice).
Proof.
  unfold generatePDFs.
  intros [-> | [-> | ->]]; simpl; [done| |].
  - by rewrite orb_true_r.
  - by rewrite orb_true_r.
Qed.


End Failures.

Lemma generatePDFs_precondition_failure_witness :
  generatePDFs Sample.lib (setCsvData Sample.session []) Sample.world
    = (inr tt, alerted Sample.world preconditionNotice).
Proof.
  apply (generatePDFs_precondition_failure Sample.lib).
  right; left; reflexivity.
Defined.

(** C3, as stated, fails for a template buffer that is stored but has no
    bytes: the guard tests the buffer for [null] only, so the loader is
    called, throws, and the user sees the failure notice instead of the
    precondition notice.  Whatever the library does with an empty buffer,
    the outcome is not the precondition failure. *)
Lemma empty_template_buffer_reaches_loader :
  templatePdfBytes Sample.emptyUpload = Some [] /\
  generatePDFs Sample.lib Sample.emptyUpload Sample.world
    = (inr tt, caught Sample.world ParseError) /\
  forall lib : PdfLib float,
    generatePDFs lib Sample.emptyUpload Sample.world
      <> (inr tt, alerted Sample.world preconditionNotice).
Proof.
  split; [done|]. split; [done|].
  intros lib Hrun. unfold generatePDFs, tryCatch in Hrun. simpl in Hrun.
  destruct (generatePDFs_try lib Sample.emptyUpload Sample.world)
    as [[e|[]] w1] eqn:Htry;
    apply generatePDFs_try_downloads in Htry as (Ha & _).
  - apply (f_equal (fun r => alerts r.2)) in Hrun. simpl in Hrun.
    rewrite Ha in Hrun. discriminate.
  - apply (f_equal (fun r => alerts r.2)) in Hrun. simpl in Hrun.
    rewrite Ha in Hrun. discriminate.
Qed.


(** ** The batch stamper: what is drawn, and where *)

Section Stamper.
Context {num : Type} {N : JsNumber num} (lib : PdfLib num).

Local Abbreviation World := (World num).

(** The handler leaves the documents its [try] block left, or none when
    the guard stopped it. *)
Lemma generatePDFs_heap (st : State num) (w : World) :
  heap (generatePDFs lib st w).2 = heap w \/
  heap (generatePDFs lib st w).2 = heap (generatePDFs_try lib st w).2.
Proof.
  unfold generatePDFs, tryCatch.
  destruct (_ || _); [by left|]. right.
  by destruct (generatePDFs_try lib st w) as [[e|[]] w1].
Qed.

(** A run that shows no notice passed the guard and its [try] block
    ended normally. *)
Lemma generatePDFs_silent (st : State num) (w : World) :
  alerts (generatePDFs lib st w).2 = alerts w ->
  exists w', generatePDFs_try lib st w = (inr tt, w') /\
    generatePDFs lib st w = (inr tt, w').
Proof.
  unfold generatePDFs, tryCatch.
  destruct (_ || _).
  { simpl. intros Ha. apply (f_equal length) in Ha.
    rewrite length_app in Ha. simpl in Ha. lia. }
  destruct (generatePDFs_try lib st w) as [[e|[]] w1] eqn:Htry.
  - apply generatePDFs_try_downloads in Htry as (Ha1 & _).
    simpl. rewrite Ha1. intros Ha. apply (f_equal length) in Ha.
    rewrite length_app in Ha. simpl in Ha. lia.
  - intros _. by exists w1.
Qed.

(** The documents of a run, as [generatePDFs_try_heap] gives them; every
    field is drawn on every one of them when no notice was shown. *)
Lemma generatePDFs_documents (st : State num) (w : World) :
  exists docs,
    heap (generatePDFs lib st w).2 = heap w ++ docs /\
    (forall d, docs !! 0 = Some d ->
       exists pages k, Loaded lib (templatePdfBytes st) pages /\
         d = stampDoc [] k (freshDoc pages)) /\
    (forall i d, docs !! S i = Some d ->
       exists row p ps n k ops,
         csvData st !! i = Some row /\
         Loaded lib (templatePdfBytes st) (p :: ps) /\
         rowOps (page_width p) (page_height p) row (take n (templateFields st))
           = Some ops /\
         d = stampDoc ops k (freshDoc (p :: ps)) /\
         (alerts (generatePDFs lib st w).2 = alerts w ->
          n = length (templateFields st) /\ k = length (templateFields st))).
Proof.
  destruct (generatePDFs_heap st w) as [Hh | Hh].
  - exists []. rewrite app_nil_r. by repeat split.
  - destruct (generatePDFs_try lib st w) as [res w'] eqn:Htry.
    destruct (generatePDFs_try_heap lib _ _ _ _ Htry) as (docs & Hh' & H0 & Hrows).
    exists docs. split; [by rewrite Hh|]. split; [done|].
    intros i d Hd.
    destruct (Hrows i d Hd) as (row & p & ps & Hrow & Hl & n & k & ops & Hops & -> & Hall).
    exists row, p, ps, n, k, ops.
    split; [done|]. split; [done|]. split; [done|]. split; [done|].
    intros Hsilent. apply generatePDFs_silent in Hsilent as (w1 & Htry' & _).
    rewrite Htry in Htry'. injection Htry' as -> ->. by apply Hall.
Qed.

(** The downloads of a run: the file with index [i] carries the name
    derived from row [i] and the bytes of the document of row [i], on
    which every field is drawn; there is one per row when no notice was
    shown. *)
Lemma generatePDFs_outputs (st : State num) (w : World) :
  exists outs,
    downloads (generatePDFs lib st w).2 = downloads w ++ outs /\
    (forall i out, outs !! i = Some out ->
       exists row p ps d, csvData st !! i = Some row /\
         Loaded lib (templatePdfBytes st) (p :: ps) /\
         heap (generatePDFs lib st w).2 !! (length (heap w) + S i) = Some d /\
         Delivered lib (p :: ps) (page_width p) (page_height p)
           (templateFields st) row d out) /\
    (alerts (generatePDFs lib st w).2 = alerts w ->
     length outs = length (csvData st)).
Proof.
  destruct (generatePDFs_try lib st w) as [res w'] eqn:Htry.
  destruct (generatePDFs_try_downloads lib _ _ _ _ Htry)
    as (_ & _ & outs & Hd & Houts & Hlen).
  assert (Hcase :
    generatePDFs lib st w = (inr tt, alerted w preconditionNotice) \/
    exists w1, generatePDFs lib st w = (inr tt, w1) /\
      heap w1 = heap w' /\ downloads w1 = downloads w').
  { unfold generatePDFs, tryCatch. destruct (_ || _); [by left|]. right.
    rewrite Htry. destruct res as [e|[]]; by eexists. }
  destruct Hcase as [Hpre | (w1 & Hrun & Hh1 & Hd1)].
  - exists []. rewrite Hpre, app_nil_r. repeat split; try done.
    simpl. intros Ha. apply (f_equal length) in Ha.
    rewrite length_app in Ha. simpl in Ha. lia.
  - exists outs. split; [by rewrite Hrun; simpl; rewrite Hd1|]. split.
    + intros i out Hi. destruct (Houts i out Hi) as (row & p & ps & d & ?).
      exists row, p, ps, d. rewrite Hrun. simpl. by rewrite Hh1.
    + intros Hsilent. apply generatePDFs_silent in Hsilent as (w2 & Htry' & _).
      rewrite Htry in Htry'. by injection Htry' as -> ->.
Qed.

(** C1. Every document a run creates is loaded from the template bytes
    and added to the heap; no document that existed is touched.  The
    first is the one the size is read from, and nothing is drawn on it.
    The one after it with index [i] is the document of row [i]: the
    freshly loaded pages, with text operations of fields of row [i] added
    to the first page and nothing else, so no text of another row is on
    it.  The file with index [i] handed to the user holds the bytes of
    that document, and there is one file per row when no notice was
    shown. *)
Theorem fresh_document_per_row (st : State num) (w : World) :
  exists docs outs,
    heap (generatePDFs lib st w).2 = heap w ++ docs /\
    downloads (generatePDFs lib st w).2 = downloads w ++ outs /\
    (forall d, docs !! 0 = Some d ->
       exists pages k, Loaded lib (templatePdfBytes st) pages /\
         d = stampDoc [] k (freshDoc pages)) /\
    (forall i d, docs !! S i = Some d ->
       exists row pages W H n k ops,
         csvData st !! i = Some row /\
         Loaded lib (templatePdfBytes st) pages /\
         rowOps W H row (take n (templateFields st)) = Some ops /\
         d = stampDoc ops k (freshDoc pages) /\
         Forall (fun op => exists field,
                   field ∈ templateFields st /\
                   fieldText row field = Js.JString (op_text op)) ops) /\
    (forall i out, outs !! i = Some out ->
       exists d, docs !! S i = Some d /\ pdf_serialize lib d = Some out.2) /\
    (alerts (generatePDFs lib st w).2 = alerts w ->
     length outs = length (csvData st)).
Proof.
  destruct (generatePDFs_documents st w) as (docs & Hh & H0 & Hrows).
  destruct (generatePDFs_outputs st w) as (outs & Hd & Houts & Hlen).
  exists docs, outs. split; [done|]. split; [done|]. split; [done|].
  split; [|split; [|done]].
  - intros i d Hi.
    destruct (Hrows i d Hi) as (row & p & ps & n & k & ops & Hrow & Hl & Hops & -> & _).
    exists row, (p :: ps), (page_width p), (page_height p), n, k, ops.
    repeat split; try done.
    apply mapM_Some in Hops. apply Forall_forall. intros op Hop.
    apply list_elem_of_lookup in Hop as [j Hj].
    destruct (Forall2_lookup_r _ _ _ _ _ Hops Hj) as (field & Hfield & Hfop).
    exists field. split.
    + apply lookup_take_Some in Hfield as [Hfield _].
      by apply list_elem_of_lookup_2 in Hfield.
    + unfold fieldOp in Hfop. destruct (fieldText row field); try done.
      by injection Hfop as <-.
  - intros i out Hi.
    destruct (Houts i out Hi) as (row & p & ps & d & _ & _ & Hdoc & ops & _ & _ & _ & Hs).
    exists d. split; [|done].
    rewrite Hh, lookup_app_r in Hdoc by lia.
    by replace (length (heap w) + S i - length (heap w)) with (S i) in Hdoc by lia.
Qed.

End Stamper.

(** ** The value drawn for a field, and the name of a download *)

Section Lookup.
Context {num : Type} {N : JsNumber num} (lib : PdfLib num).
Local Open Scope jsnum_scope.

Local Abbreviation TemplateField := (TemplateField.t num).

(** A column the row has, with a falsy value, gives the empty string. *)
Lemma fieldText_falsy (row : Js.Object) (field : TemplateField) v :
  Js.getOwn row (TemplateField.fieldName field) = Some v ->
  Js.truthy v = false ->
  fieldText row field = Js.JString "".
Proof.
  intros Hown Hfalsy. unfold fieldText, Js.get, Js.or. by rewrite Hown, Hfalsy.
Qed.

(** A column the row does not have gives the empty string, unless every
    object inherits a property of that name. *)
Lemma fieldText_missing (row : Js.Object) (field : TemplateField) :
  Js.getOwn row (TemplateField.fieldName field) = None ->
  Js.objectPrototype (TemplateField.fieldName field) = Js.JUndefined ->
  fieldText row field = Js.JString "".
Proof.
  intros Hown Hproto. unfold fieldText, Js.get, Js.or. by rewrite Hown, Hproto.
Qed.

(** The empty string is drawn whatever the font encodes, at a position
    that is not [NaN]. *)
Lemma stampField_empty h d w W H row (field : TemplateField) :
  fieldText row field = Js.JString "" ->
  isNaN (drawX W field) = false ->
  isNaN (drawY H field) = false ->
  font_available lib Helvetica = true ->
  heap w = h ++ [d] ->
  stampField lib (length h) (Some (length h, 0)) W H row field w
    = (inr tt, setHeap w (h ++ [stampDoc [textOp W H field ""] 1 d])).
Proof.
  intros Htext Hx Hy Hfont Hh. unfold drawX in Hx. unfold drawY in Hy.
  unfold stampField, member, bind, ret, embedFont. rewrite Hfont.
  unfold fieldText in Htext. rewrite Htext. unfold drawText. simpl.
  rewrite Hx, Hy. simpl.
  rewrite Hh, !alter_last, addFont_stampDoc, onPage_stampDoc, stampDoc_stampDoc.
  done.
Qed.

(** X12. A field whose column the row has with a falsy value is drawn as
    the empty string, at the position computed for the field, provided
    that position is not [NaN]: the operation appended to the page has
    the text [""], [x = (field.x / 100) * width] and
    [y = height - (field.y / 100) * height].  A row without the column
    gives the same, provided the name is not one every object inherits. *)
Theorem falsy_value_draws_empty_string h d w W H row (field : TemplateField) v :
  Js.getOwn row (TemplateField.fieldName field) = Some v ->
  Js.truthy v = false ->
  isNaN ((TemplateField.x field /^ lit 100) *^ W) = false ->
  isNaN (H -^ (TemplateField.y field /^ lit 100) *^ H) = false ->
  font_available lib Helvetica = true ->
  heap w = h ++ [d] ->
  stampField lib (length h) (Some (length h, 0)) W H row field w
    = (inr tt,
       setHeap w
         (h ++ [stampDoc
                  [{| op_text := "";
                      op_x := (TemplateField.x field /^ lit 100) *^ W;
                      op_y := H -^ (TemplateField.y field /^ lit 100) *^ H;
                      op_size := lit 12; op_font := Helvetica;
                      op_color := (lit 0, lit 0, lit 0) |}] 1 d])) /\
  forall row',
    Js.getOwn row' (TemplateField.fieldName field) = None ->
    Js.objectPrototype (TemplateField.fieldName field) = Js.JUndefined ->
    stampField lib (length h) (Some (length h, 0)) W H row' field w
      = stampField lib (length h) (Some (length h, 0)) W H row field w.
Proof.
  intros Hown Hfalsy Hx Hy Hfont Hh.
  assert (Hrow := stampField_empty h d w W H row field
                    (fieldText_falsy _ _ _ Hown Hfalsy) Hx Hy Hfont Hh).
  split; [done|]. intros row' Hown' Hproto. rewrite Hrow.
  apply stampField_empty; try done. by apply fieldText_missing.
Qed.

End Lookup.

(** A row whose keys are no array indices is named after its first
    column. *)
Lemma downloadName_first_column (key value : string) (rest : Js.Object) :
  Forall (fun k => Js.isArrayIndex k = false) (key :: map fst rest) ->
  downloadName ((key, Js.JString value) :: rest)
    = ("generated_" ++ value ++ ".pdf")%string.
Proof.
  intros Hkeys. unfold downloadName, Js.keys.
  assert (Hnone : forall ks, Forall (fun k => Js.isArrayIndex k = false) ks ->
            Js.indexKeys ks = []).
  { induction 1 as [|k ks Hk _ IH]; [done|]. simpl.
    unfold Js.isArrayIndex in Hk. by destruct (Js.arrayIndex k). }
  change (map fst ((key, Js.JString value) :: rest)) with (key :: map fst rest).
  rewrite (Hnone _ Hkeys). simpl.
  apply Forall_cons in Hkeys as [-> _]. simpl.
  unfold Js.getAt, Js.get. simpl. by rewrite String.eqb_refl.
Qed.

Example falsy_value_draws_empty_string_on_letter :
  let w := setHeap Sample.world [freshDoc [Sample.letter]] in
  let field := Sample.field 50 50 "email" in
  stampField Sample.lib 0 (Some (0, 0)) 612%float 792%float
    [("name", Js.JString "Bob"); ("email", Js.JString "")] field w
  = (inr tt,
     setHeap w
       [stampDoc
          [{| op_text := ""; op_x := 306%float; op_y := 396%float;
              op_size := 12%float; op_font := Helvetica;
              op_color := (0%float, 0%float, 0%float) |}] 1
          (freshDoc [Sample.letter])]).
Proof.
  exact (proj1
    (falsy_value_draws_empty_string Sample.lib [] (freshDoc [Sample.letter])
       (setHeap Sample.world [freshDoc [Sample.letter]]) 612%float 792%float
       [("name", Js.JString "Bob"); ("email", Js.JString "")]
       (Sample.field 50 50 "email") (Js.JString "")
       eq_refl eq_refl eq_refl eq_refl eq_refl eq_refl)).
Defined.

(** C10 at a field named ["constructor"]: with the column present and
    empty the row is stamped and downloaded, with the column missing the
    lookup finds the inherited function and the batch aborts, so the two
    rows are told apart. *)
Theorem empty_column_differs_from_missing_column :
  let present :=
    setCsvData Sample.inheritedName
      [[("name", Js.JString "Bob"); ("constructor", Js.JString "")]] in
  let missing :=
    setCsvData Sample.inheritedName [[("name", Js.JString "Bob")]] in
  alerts (generatePDFs Sample.lib present Sample.world).2 = [] /\
  map fst (downloads (generatePDFs Sample.lib present Sample.world).2)
    = ["generated_Bob.pdf"] /\
  map (fun d => map Sample.pageTexts (doc_pages d))
    (heap (generatePDFs Sample.lib present Sample.world).2) = [[[]]; [[""]]] /\
  alerts (generatePDFs Sample.lib missing Sample.world).2 = [failureNotice] /\
  downloads (generatePDFs Sample.lib missing Sample.world).2 = [].
Proof. repeat split. Qed.

(** C5 at a field named ["constructor"]: no row has such a column, the
    lookup finds the inherited function, [drawText] rejects it, and the
    batch aborts with the failure notice instead of drawing the empty
    string. *)
Theorem inherited_name_is_not_drawn_blank :
  Forall (fun row => Js.getOwn row "constructor" = None)
    (csvData Sample.inheritedName) /\
  Forall (fun row =>
            fieldText row (Sample.field 10 10 "constructor") = Js.JFunction "Object")
    (csvData Sample.inheritedName) /\
  alerts (generatePDFs Sample.lib Sample.inheritedName Sample.world).2
    = [failureNotice] /\
  console (generatePDFs Sample.lib Sample.inheritedName Sample.world).2
    = [("Error generating PDFs:", TypeError "text must be of type string")] /\
  downloads (generatePDFs Sample.lib Sample.inheritedName Sample.world).2 = [].
Proof. repeat split; by repeat constructor. Qed.

(** C7 at a data file with the header [name,1]: the row's keys are
    listed with the array index first, so the file is named after the
    second column. *)
Theorem numeric_header_names_the_download :
  map fst [("name", Js.JString "Alice"); ("1", Js.JString "x")] = ["name"; "1"] /\
  Js.keys [("name", Js.JString "Alice"); ("1", Js.JString "x")] = ["1"; "name"] /\
  map fst (downloads (generatePDFs Sample.lib Sample.numericHeader Sample.world).2)
    = ["generated_x.pdf"] /\
  alerts (generatePDFs Sample.lib Sample.numericHeader Sample.world).2 = [].
Proof. repeat split. Qed.

(** A session from the start: template mode is switched on, a template
    is dropped, a field is placed by a click, a data file is parsed, and
    the batch is generated. *)
Example session_from_scratch :
  let file := {| file_name := "template.pdf"; file_bytes := Sample.template |} in
  let rows := [[("name", Js.JString "Alice")]; [("name", Js.JString "Bob")]] in
  match onDrop (toggleTemplateMode initialState) [file] Sample.world with
  | (inr st, w) =>
      let st' := handleCSVUpload (clickPage st Sample.pointer (Some "name")) (Some rows) in
      templateFields st' = [Sample.field 25 50 "name"] /\
      templatePdfBytes st' = Some Sample.template /\
      map fst (downloads (generatePDFs Sample.lib st' w).2)
        = ["generated_Alice.pdf"; "generated_Bob.pdf"]
  | (inl _, _) => False
  end.
Proof. repeat split. Qed.

(** The missing-column scenario of the specification: a row without
    [email] gets the empty string at that field, and its file. *)
Example generatePDFs_missing_column :
  let st :=
    setCsvData
      (setTemplateFields Sample.session (fun _ => [Sample.field 50 50 "email"]))
      [[("name", Js.JString "Bob")]] in
  let w' := (generatePDFs Sample.lib st Sample.world).2 in
  map fst (downloads w') = ["generated_Bob.pdf"] /\
  alerts w' = [] /\
  map (fun d => map Sample.pageTexts (doc_pages d)) (heap w') = [[[]]; [[""]]].
Proof. repeat split. Qed.

(** On a Letter page, in doubles, a field at the centre is drawn at the
    centre of the page, on the document of every row. *)
Example centre_of_letter_page :
  let st := setTemplateFields Sample.session (fun _ => [Sample.field 50 50 "name"]) in
  map (fun d => map (fun p => map (fun op => (op_text op, op_x op, op_y op))
                                (page_content p)) (doc_pages d))
    (heap (generatePDFs Sample.lib st Sample.world).2)
  = [[[]]; [[("Alice", 306%float, 396%float)]]; [[("Bob", 306%float, 396%float)]]].
Proof. reflexivity. Qed.

(** The end-to-end scenario of the specification: two rows, two files,
    each with its own name stamped near the top-left corner. *)
Example generatePDFs_end_to_end :
  let w' := (generatePDFs Sample.lib Sample.session Sample.world).2 in
  map fst (downloads w') = ["generated_Alice.pdf"; "generated_Bob.pdf"] /\
  alerts w' = [] /\
  map (fun d => map Sample.pageTexts (doc_pages d)) (heap w')
    = [[[]]; [["Alice"]]; [["Bob"]]].
Proof. repeat split. Qed.

(** ** What a run adds to the world *)

Section Additions.
Context {num : Type} {N : JsNumber num} (lib : PdfLib num).

Local Abbreviation TemplateField := (TemplateField.t num).
Local Abbreviation World := (World num).

Lemma setHeap_same (w : World) h : heap w = h -> setHeap w h = w.
Proof. destruct w; simpl. by intros <-. Qed.

Lemma extend_nil (w : World) : extend w [] 0 [] [] [] = w.
Proof. destruct w; unfold extend; simpl. by rewrite !app_nil_r. Qed.

Lemma extend_extend (w : World) docs1 n1 outs1 notes1 logs1 docs2 n2 outs2 notes2 logs2 :
  extend (extend w docs1 n1 outs1 notes1 logs1) docs2 n2 outs2 notes2 logs2
  = extend w (docs1 ++ docs2) (n1 + n2) (outs1 ++ outs2) (notes1 ++ notes2)
      (logs1 ++ logs2).
Proof.
  unfold extend; simpl. by rewrite replicate_add, !app_assoc.
Qed.

(** One turn of the inner loop on the document created last: how it ends
    and what it makes of the document depend on the document alone. *)
Lemma stampField_uniform W H row (f : TemplateField) d :
  exists res d', forall h (w : World),
    heap w = h ++ [d] ->
    stampField lib (length h) (Some (length h, 0)) W H row f w
      = (res, setHeap w (h ++ [d'])).
Proof.
  unfold stampField, member, bind, ret, embedFont.
  destruct (font_available lib Helvetica).
  2:{ exists (inl (FontError Helvetica)), d. intros h w Hh.
      by rewrite setHeap_same. }
  destruct (Js.or _ _) as [| |b|s|items|name|] eqn:Htext;
    try (eexists _, (stampDoc [] 1 d); intros h w Hh; simpl;
         by rewrite Hh, alter_last, addFont_stampDoc).
  unfold drawText. simpl opt_x. simpl opt_y.
  destruct (isNaN _);
    [eexists _, (stampDoc [] 1 d); intros h w Hh; simpl;
     by rewrite Hh, alter_last, addFont_stampDoc|].
  destruct (isNaN _);
    [eexists _, (stampDoc [] 1 d); intros h w Hh; simpl;
     by rewrite Hh, alter_last, addFont_stampDoc|].
  destruct (forallb (font_encodes lib) (list_ascii_of_string s)).
  - eexists _, (stampDoc [textOp W H f s] 1 d). intros h w Hh. simpl.
    by rewrite Hh, !alter_last, addFont_stampDoc, onPage_stampDoc,
      stampDoc_stampDoc.
  - eexists _, (stampDoc [] 1 d). intros h w Hh. simpl.
    by rewrite Hh, alter_last, addFont_stampDoc.
Qed.

Lemma forOf_stampField_uniform W H row (fs : list TemplateField) d :
  exists res d', forall h (w : World),
    heap w = h ++ [d] ->
    forOf fs (stampField lib (length h) (Some (length h, 0)) W H row) w
      = (res, setHeap w (h ++ [d'])).
Proof.
  revert d. induction fs as [|f fs IH]; intros d.
  - exists (inr tt), d. intros h w Hh. simpl. unfold ret.
    by rewrite setHeap_same.
  - destruct (stampField_uniform W H row f d) as ([e|[]] & d1 & Hstep).
    + exists (inl e), d1. intros h w Hh. by rewrite forOf_cons, (Hstep h w Hh).
    + destruct (IH d1) as (res & d' & Hrest). exists res, d'.
      intros h w Hh. rewrite forOf_cons, (Hstep h w Hh).
      by rewrite (Hrest h (setHeap w (h ++ [d1]))).
Qed.

Lemma setHeap_extend (w : World) docs :
  setHeap w (heap w ++ docs) = extend w docs 0 [] [] [].
Proof. destruct w; unfold setHeap, extend; simpl. by rewrite !app_nil_r. Qed.

(** The inner loop as [stampRow] runs it, on the document it has just
    loaded. *)
Lemma stampRow_fields_uniform pages (fields : list TemplateField) W H row :
  exists res d', forall w : World,
    forOf fields
      (stampField lib (length (heap w))
         (head (A:=PageRef)
            (map (B:=PageRef) (fun i => (length (heap w), i))
               (seq 0 (length pages))))
         W H row)
      (setHeap w (heap w ++ [freshDoc pages]))
    = (res, setHeap w (heap w ++ [d'])).
Proof.
  destruct pages as [|p ps].
  - destruct fields as [|f fields]; eexists _, (freshDoc []); intros w; done.
  - destruct (forOf_stampField_uniform W H row fields (freshDoc (p :: ps)))
      as (res & d' & Hloop).
    exists res, d'. intros w.
    exact (Hloop (heap w) (setHeap w (heap w ++ [freshDoc (p :: ps)])) eq_refl).
Qed.

(** One turn of the outer loop adds to the world, and what it adds does
    not depend on the world: at most one document, and, when it ends
    normally, one download behind an object URL it has revoked. *)
Lemma stampRow_uniform template (fields : list TemplateField) W H row :
  exists res docs outs, forall w : World,
    stampRow lib template fields W H row w
      = (res, extend w docs (length outs) outs [] []).
Proof.
  destruct template as [bytes|].
  2:{ eexists _, [], []. intros w. by rewrite extend_nil. }
  destruct (pdf_parse lib bytes) as [pages|] eqn:Hparse.
  2:{ eexists _, [], []. intros w. unfold stampRow, bind, PDFDocument_load.
      by rewrite Hparse, extend_nil. }
  destruct (stampRow_fields_uniform pages fields W H row) as (res2 & d' & Hloop).
  assert (Hstart : forall w : World,
    stampRow lib (Some bytes) fields W H row w =
      match res2 with
      | inl e => (inl e, setHeap w (heap w ++ [d']))
      | inr _ =>
          match pdf_serialize lib d' with
          | Some content =>
              (inr tt,
               extend w [d'] 1 [(downloadName row, content)] [] [])
          | None => (inl SaveError, setHeap w (heap w ++ [d']))
          end
      end).
  { intros w. unfold stampRow.
    assert (Hload : PDFDocument_load lib (Some bytes) w
              = (inr (length (heap w)), setHeap w (heap w ++ [freshDoc pages]))).
    { unfold PDFDocument_load. by rewrite Hparse. }
    rewrite (bind_inr _ _ _ _ _ Hload).
    unfold bind at 1, getPages. simpl heap. rewrite lookup_last.
    unfold bind at 1. simpl doc_pages.
    set (loop := forOf fields _ _).
    assert (Hl : loop = (res2, setHeap w (heap w ++ [d']))) by exact (Hloop w).
    rewrite Hl. clear loop Hl.
    destruct res2 as [e|[]]; [done|].
    unfold bind at 1, save. simpl heap. rewrite lookup_last.
    destruct (pdf_serialize lib d') as [content|]; [|done].
    unfold bind, createObjectURL, click, revokeObjectURL. simpl.
    rewrite lookup_last. simpl. unfold extend, setBlobs. simpl.
    f_equal. f_equal.
    - rewrite <- (Nat.add_0_r (length (blobs w))) at 1.
      by rewrite insert_app_r.
    - by rewrite app_nil_r.
    - by rewrite app_nil_r. }
  destruct res2 as [e|[]].
  - exists (inl e), [d'], []. intros w. by rewrite Hstart, setHeap_extend.
  - destruct (pdf_serialize lib d') as [content|].
    + exists (inr tt), [d'], [(downloadName row, content)]. intros w.
      by rewrite Hstart.
    + exists (inl SaveError), [d'], []. intros w.
      by rewrite Hstart, setHeap_extend.
Qed.

Lemma forOf_stampRow_uniform template (fields : list TemplateField) W H rows :
  exists res docs outs, forall w : World,
    forOf rows (stampRow lib template fields W H) w
      = (res, extend w docs (length outs) outs [] []).
Proof.
  induction rows as [|row rows IH].
  - exists (inr tt), [], []. intros w. simpl. unfold ret. by rewrite extend_nil.
  - destruct (stampRow_uniform template fields W H row)
      as ([e|[]] & docs1 & outs1 & Hrow).
    + exists (inl e), docs1, outs1. intros w. by rewrite forOf_cons, Hrow.
    + destruct IH as (res & docs & outs & Hrest).
      exists res, (docs1 ++ docs), (outs1 ++ outs). intros w.
      by rewrite forOf_cons, Hrow, Hrest, extend_extend, length_app.
Qed.

Lemma measureTemplate_uniform template :
  exists res docs, forall w : World,
    measureTemplate lib template w = (res, extend w docs 0 [] [] []).
Proof.
  unfold measureTemplate.
  destruct template as [bytes|].
  2:{ eexists _, []. intros w. by rewrite extend_nil. }
  destruct (pdf_parse lib bytes) as [pages|] eqn:Hparse.
  2:{ eexists _, []. intros w. unfold bind, PDFDocument_load.
      by rewrite Hparse, extend_nil. }
  destruct (font_available lib Helvetica) eqn:Hfont.
  2:{ eexists _, [freshDoc pages]. intros w.
      unfold bind, PDFDocument_load, embedFont.
      by rewrite Hparse, Hfont, <- setHeap_extend. }
  destruct pages as [|p ps].
  - eexists _, [addFont Helvetica (freshDoc [])]. intros w.
    unfold bind, PDFDocument_load, embedFont, getPages, getSize, member, throw, bind.
    rewrite Hparse, Hfont. simpl. rewrite alter_last, lookup_last. simpl.
    by rewrite <- setHeap_extend.
  - eexists _, [addFont Helvetica (freshDoc (p :: ps))]. intros w.
    unfold bind, PDFDocument_load, embedFont, getPages, getSize, member, ret, bind.
    rewrite Hparse, Hfont. simpl. rewrite alter_last, lookup_last. simpl.
    rewrite lookup_last. simpl. by rewrite <- setHeap_extend.
Qed.

Lemma generatePDFs_try_uniform (st : State num) :
  exists res docs outs, forall w : World,
    generatePDFs_try lib st w = (res, extend w docs (length outs) outs [] []).
Proof.
  destruct (measureTemplate_uniform (templatePdfBytes st))
    as ([e|size] & docs0 & Hm).
  - exists (inl e), docs0, []. intros w.
    rewrite generatePDFs_try_measure. unfold bind. by rewrite Hm.
  - destruct (forOf_stampRow_uniform (templatePdfBytes st) (templateFields st)
                size.1 size.2 (csvData st)) as (res & docs & outs & Hrows).
    exists res, (docs0 ++ docs), outs. intros w.
    rewrite generatePDFs_try_measure. unfold bind. rewrite Hm, Hrows.
    by rewrite extend_extend.
Qed.

(** What [generatePDFs] does to the world does not depend on the world:
    it adds documents, revoked object URLs, one per download, downloads,
    and at most one notice with its console entry; the notice is the
    failure notice unless the Generate button is disabled. *)
Lemma generatePDFs_uniform (st : State num) :
  exists docs outs notes logs,
    (forall w : World,
       generatePDFs lib st w
         = (inr tt, extend w docs (length outs) outs notes logs)) /\
    (generateDisabled st = false -> notes = [] \/ notes = [failureNotice]) /\
    (generateDisabled st = true -> notes = [preconditionNotice] /\ outs = []).
Proof.
  unfold generatePDFs, generateDisabled.
  destruct (_ || _).
  - exists [], [], [preconditionNotice], []. split; [|by split].
    intros w. unfold alert, extend. simpl. by rewrite !app_nil_r.
  - destruct (generatePDFs_try_uniform st) as ([e|[]] & docs & outs & Htry).
    + exists docs, outs, [failureNotice], [("Error generating PDFs:", e)].
      split; [|split; [by right|done]].
      intros w. unfold tryCatch. rewrite Htry.
      unfold generatePDFs_catch, bind, console_error, alert, extend. simpl.
      by rewrite !app_nil_r.
    + exists docs, outs, [], []. split; [|split; [by left|done]].
      intros w. unfold tryCatch. by rewrite Htry.
Qed.

(** X1. Run again in the same state, [generatePDFs] creates the same
    documents (the same pages with the same text operations and fonts),
    hands out files under the same names, and shows the same notice:
    what a run adds depends on the component state only, not on the
    documents, URLs or downloads earlier runs left.  (Of the bytes of the
    files nothing is said.) *)
Theorem generatePDFs_repeatable (st : State num) :
  exists docs names notes, forall w : World,
    let w1 := (generatePDFs lib st w).2 in
    let w2 := (generatePDFs lib st w1).2 in
    heap w1 = heap w ++ docs /\
    map fst (downloads w1) = map fst (downloads w) ++ names /\
    alerts w1 = alerts w ++ notes /\
    heap w2 = heap w ++ docs ++ docs /\
    map fst (downloads w2) = map fst (downloads w) ++ names ++ names /\
    alerts w2 = alerts w ++ notes ++ notes.
Proof.
  destruct (generatePDFs_uniform st) as (docs & outs & notes & logs & Hrun & _).
  exists docs, (map fst outs), notes. intros w. simpl. rewrite !Hrun. simpl.
  by rewrite !map_app, <- !app_assoc.
Qed.

(** X2. [generatePDFs] revokes every object URL it creates, one per
    download, and no other: the URLs that are live after a run are the
    ones that were live before it. *)
Theorem generatePDFs_revokes_its_object_urls (st : State num) (w : World) :
  let w' := (generatePDFs lib st w).2 in
  exists outs,
    downloads w' = downloads w ++ outs /\
    blobs w' = blobs w ++ replicate (length outs) None /\
    forall url content,
      blobs w' !! url = Some (Some content) <->
      blobs w !! url = Some (Some content).
Proof.
  destruct (generatePDFs_uniform st) as (docs & outs & notes & logs & Hrun & _).
  simpl. rewrite Hrun. simpl. exists outs. split; [done|]. split; [done|].
  intros url content. split.
  - intros Hlive. apply lookup_app_Some in Hlive as [Hold | [_ Hnew]]; [done|].
    apply lookup_replicate in Hnew as [Hnone _]. done.
  - intros Hold. by apply lookup_app_l_Some.
Qed.

(** X3. In every document a run creates, the pages after the first are
    the pages of the template as parsed, and the first page keeps its
    size and its content, to which text operations are added at the end:
    nothing is drawn on another page, and nothing is erased. *)
Theorem stamping_adds_to_the_first_page_only (st : State num) (w : World) :
  exists docs,
    heap (generatePDFs lib st w).2 = heap w ++ docs /\
    forall i d, docs !! i = Some d ->
      exists pages,
        Loaded lib (templatePdfBytes st) pages /\
        length (doc_pages d) = length pages /\
        (forall j, doc_pages d !! S j = pages !! S j) /\
        (forall p, pages !! 0 = Some p ->
           exists p', doc_pages d !! 0 = Some p' /\
             page_width p' = page_width p /\
             page_height p' = page_height p /\
             exists ops, page_content p' = page_content p ++ ops).
Proof.
  destruct (generatePDFs_documents lib st w) as (docs & Hh & H0 & Hrows).
  exists docs. split; [done|]. intros i d Hi.
  assert (Hd : exists pages ops k,
            Loaded lib (templatePdfBytes st) pages /\
            d = stampDoc ops k (freshDoc pages)).
  { destruct i as [|i].
    - destruct (H0 d Hi) as (pages & k & Hl & ->). by exists pages, [], k.
    - destruct (Hrows i d Hi) as (row & p & ps & n & k & ops & _ & Hl & _ & -> & _).
      by exists (p :: ps), ops, k. }
  destruct Hd as (pages & ops & k & Hl & ->).
  exists pages. split; [done|]. simpl. split; [by rewrite length_alter|]. split.
  - intros j. by rewrite list_lookup_alter_ne.
  - intros p Hp. exists (pushTexts ops p). rewrite list_lookup_alter_eq, Hp.
    simpl. repeat split. by exists ops.
Qed.

(** X4. A run that shows no notice downloads one file per row, in row
    order, each named after its row; a row whose headers are no array
    indices and whose first cell is a string [v] gives
    [generated_v.pdf]. *)
Theorem silent_run_downloads_one_file_per_row (st : State num) (w : World) :
  alerts (generatePDFs lib st w).2 = alerts w ->
  exists outs,
    downloads (generatePDFs lib st w).2 = downloads w ++ outs /\
    map fst outs = map downloadName (csvData st) /\
    forall i key value (rest : Js.Object),
      csvData st !! i = Some (A:=Js.Object) ((key, Js.JString value) :: rest) ->
      Forall (fun k => Js.isArrayIndex k = false) (key :: map fst rest) ->
      fst <$> outs !! i = Some ("generated_" ++ value ++ ".pdf")%string.
Proof.
  intros Hsilent.
  destruct (generatePDFs_outputs lib st w) as (outs & Hd & Houts & Hlen).
  specialize (Hlen Hsilent). exists outs. split; [done|].
  assert (Hnames : map fst outs = map downloadName (csvData st)).
  { apply list_eq. intros i. rewrite !list_lookup_fmap.
    destruct (outs !! i) as [out|] eqn:Hi.
    - destruct (Houts i out Hi) as (row & p & ps & d & Hrow & _ & _ & ops & _ & _ & Hn & _).
      rewrite Hrow. simpl. by rewrite Hn.
    - apply lookup_ge_None in Hi. rewrite Hlen in Hi.
      apply lookup_ge_None in Hi. by rewrite Hi. }
  split; [done|]. intros i key value rest Hrow Hkeys.
  rewrite <- list_lookup_fmap.
  change (fmap fst outs) with (map fst outs). rewrite Hnames.
  change (map downloadName (csvData st)) with (fmap downloadName (csvData st)).
  rewrite list_lookup_fmap, Hrow. simpl.
  by rewrite downloadName_first_column.
Qed.

(** A drawable cell is drawn. *)
Lemma stampField_draws h d (w : World) W H row (field : TemplateField) :
  Drawable lib W H row field ->
  font_available lib Helvetica = true ->
  heap w = h ++ [d] ->
  exists s,
    stampField lib (length h) (Some (length h, 0)) W H row field w
      = (inr tt, setHeap w (h ++ [stampDoc [textOp W H field s] 1 d])).
Proof.
  intros ((s & Htext & Henc) & Hx & Hy) Hfont Hh. exists s.
  unfold stampField, member, bind, ret, embedFont. rewrite Hfont.
  unfold fieldText in Htext. rewrite Htext. unfold drawText. simpl.
  rewrite Hx, Hy, Henc. simpl.
  by rewrite Hh, !alter_last, addFont_stampDoc, onPage_stampDoc, stampDoc_stampDoc.
Qed.

Lemma forOf_stampField_draws h W H row (fs : list TemplateField) d (w : World) :
  font_available lib Helvetica = true ->
  Forall (Drawable lib W H row) fs ->
  heap w = h ++ [d] ->
  (forOf fs (stampField lib (length h) (Some (length h, 0)) W H row) w).1 = inr tt.
Proof.
  intros Hfont Hfs. revert d w.
  induction Hfs as [|f fs Hf _ IH]; intros d w Hh; [done|].
  destruct (stampField_draws h d w W H row f Hf Hfont Hh) as [s Hstep].
  rewrite forOf_cons, Hstep. by eapply IH.
Qed.

(** A row of drawable cells on a template with a page is stamped, saved
    and downloaded. *)
Lemma stampRow_succeeds bytes p ps (fields : list TemplateField) W H row (w : World) :
  pdf_parse lib bytes = Some (p :: ps) ->
  font_available lib Helvetica = true ->
  Forall (Drawable lib W H row) fields ->
  (forall d, is_Some (pdf_serialize lib d)) ->
  (stampRow lib (Some bytes) fields W H row w).1 = inr tt.
Proof.
  intros Hparse Hfont Hfields Hsave. unfold stampRow.
  assert (Hload : PDFDocument_load lib (Some bytes) w
            = (inr (length (heap w)), setHeap w (heap w ++ [freshDoc (p :: ps)]))).
  { unfold PDFDocument_load. by rewrite Hparse. }
  rewrite (bind_inr _ _ _ _ _ Hload).
  unfold bind at 1, getPages. simpl heap. rewrite lookup_last.
  unfold bind at 1. simpl.
  set (w1 := setHeap w (heap w ++ [freshDoc (p :: ps)])).
  pose proof (forOf_stampField_draws (heap w) W H row fields (freshDoc (p :: ps))
                w1 Hfont Hfields eq_refl) as Hok.
  destruct (forOf fields _ w1) as [res w2] eqn:Hloop. simpl in Hok. subst res.
  destruct (forOf_stampField_run lib (heap w) W H row fields
              (freshDoc (p :: ps)) w1 _ _ eq_refl Hloop)
    as (_ & n & k & ops & _ & Hh2 & _).
  unfold bind at 1, save. rewrite Hh2, lookup_last.
  destruct (Hsave (stampDoc ops k (freshDoc (p :: ps)))) as [content ->].
  unfold bind, createObjectURL, click, revokeObjectURL. simpl.
  by rewrite lookup_last.
Qed.

Lemma forOf_stampRow_succeeds bytes p ps (fields : list TemplateField) W H rows
  (w : World) :
  pdf_parse lib bytes = Some (p :: ps) ->
  font_available lib Helvetica = true ->
  Forall (fun row => Forall (Drawable lib W H row) fields) rows ->
  (forall d, is_Some (pdf_serialize lib d)) ->
  (forOf rows (stampRow lib (Some bytes) fields W H) w).1 = inr tt.
Proof.
  intros Hparse Hfont Hrows Hsave. revert w.
  induction Hrows as [|row rows Hrow _ IH]; intros w; [done|].
  rewrite forOf_cons.
  pose proof (stampRow_succeeds bytes p ps fields W H row w Hparse Hfont Hrow Hsave)
    as Hok.
  destruct (stampRow _ _ _ _ _ _ w) as [res w1]. simpl in Hok. subst res.
  apply IH.
Qed.

Lemma measureTemplate_measures bytes p ps (w : World) :
  pdf_parse lib bytes = Some (p :: ps) ->
  font_available lib Helvetica = true ->
  measureTemplate lib (Some bytes) w
    = (inr (page_width p, page_height p),
       setHeap w (heap w ++ [addFont Helvetica (freshDoc (p :: ps))])).
Proof.
  intros Hparse Hfont.
  unfold measureTemplate, bind, PDFDocument_load, embedFont, getPages, getSize,
    member, ret, bind.
  rewrite Hparse, Hfont. simpl. rewrite alter_last, lookup_last. simpl.
  by rewrite lookup_last.
Qed.

(** The outer loop, ended normally, has created one document per row. *)
Lemma forOf_stampRow_heap_length template (fields : list TemplateField) W H rows
  (w w' : World) :
  forOf rows (stampRow lib template fields W H) w = (inr tt, w') ->
  length (heap w') = length (heap w) + length rows.
Proof.
  revert w. induction rows as [|row rows IH]; intros w Hrun.
  - injection Hrun as <-. simpl. lia.
  - rewrite forOf_cons in Hrun.
    destruct (stampRow _ _ _ _ _ _ w) as [[e|[]] w1] eqn:Hrow; [done|].
    apply stampRow_run in Hrow
      as (_ & _ & bytes & pages & ops & content & _ & _ & _ & Hh & _).
    rewrite (IH _ Hrun), Hh, length_app. simpl. lia.
Qed.

(** A run that shows no notice has created the document it measures and
    one document per row. *)
Lemma generatePDFs_silent_heap_length (st : State num) (w : World) :
  alerts (generatePDFs lib st w).2 = alerts w ->
  length (heap (generatePDFs lib st w).2)
    = length (heap w) + S (length (csvData st)).
Proof.
  intros Hsilent.
  destruct (generatePDFs_silent lib st w Hsilent) as (w' & Htry & ->). simpl.
  apply generatePDFs_try_run in Htry
    as [(e & He & _) | (p & ps & _ & Hrun)]; [done|].
  apply forOf_stampRow_heap_length in Hrun. rewrite Hrun. simpl.
  rewrite length_app. simpl. lia.
Qed.

(** When the library accepts everything it is given, the run shows no
    notice. *)
Lemma generatePDFs_silent_when_drawable (st : State num) (w : World) bytes p ps :
  templatePdfBytes st = Some bytes ->
  pdf_parse lib bytes = Some (p :: ps) ->
  font_available lib Helvetica = true ->
  (forall d, is_Some (pdf_serialize lib d)) ->
  csvData st <> [] ->
  templateFields st <> [] ->
  Forall (fun row =>
            Forall (Drawable lib (page_width p) (page_height p) row)
              (templateFields st))
    (csvData st) ->
  alerts (generatePDFs lib st w).2 = alerts w.
Proof.
  intros Ht Hparse Hfont Hsave Hrows Hfields Hcells.
  assert (Htry : (generatePDFs_try lib st w).1 = inr tt).
  { rewrite generatePDFs_try_measure, Ht. unfold bind.
    rewrite (measureTemplate_measures bytes p ps w Hparse Hfont).
    by apply (forOf_stampRow_succeeds bytes p ps). }
  unfold generatePDFs, tryCatch. rewrite Ht.
  destruct (csvData st); [done|]. destruct (templateFields st); [done|].
  simpl. destruct (generatePDFs_try lib st w) as [res w'] eqn:Hrun.
  simpl in Htry. subst res.
  by apply generatePDFs_try_downloads in Hrun as (Ha & _).
Qed.

(** The documents of the rows and the positions of the operations on
    them, as the run leaves them. *)
Lemma generatePDFs_draws (st : State num) (w : World) :
  Drawn lib st w (fun p field op =>
    op_x op = drawX (page_width p) field /\
    op_y op = drawY (page_height p) field).
Proof.
  destruct (generatePDFs_documents lib st w) as (docs & Hh & _ & Hrows).
  exists docs. split; [done|]. split.
  - intros i d Hi.
    destruct (Hrows i d Hi)
      as (row & p & ps & n & k & ops & Hrow & Hl & Hops & -> & Hall).
    exists row, p, ps, n, k, ops. repeat split; try done; [|by apply Hall].
    apply mapM_Some in Hops. eapply Forall2_impl; [exact Hops|].
    intros field op Hop. unfold fieldOp in Hop.
    destruct (fieldText row field); try done. by injection Hop as <-.
  - intros Hsilent. apply generatePDFs_silent_heap_length in Hsilent.
    rewrite Hh, length_app in Hsilent. lia.
Qed.

Lemma Drawn_impl (st : State num) (w : World)
  (P Q : PDFPage num -> TemplateField -> TextOp num -> Prop) :
  (forall p field op, P p field op -> Q p field op) ->
  Drawn lib st w P -> Drawn lib st w Q.
Proof.
  intros HPQ (docs & Hh & Hrows & Hlen). exists docs. split; [done|].
  split; [|done]. intros i d Hi.
  destruct (Hrows i d Hi) as (row & p & ps & n & k & ops & Hrow & Hl & Hd & Hops & Hall).
  exists row, p, ps, n, k, ops. repeat split; try done.
  eapply Forall2_impl; [exact Hops|]. intros field op [Htext HP].
  split; [done|]. by apply HPQ.
Qed.

(** X5. With a template that parses to at least one page, a font that
    can be embedded, a serialiser that does not fail, at least one row
    and one field, and, for every row and field, a cell that is a string
    the font encodes and a position that is not [NaN], a run shows no
    notice and downloads one file per row. *)
Theorem generatePDFs_succeeds (st : State num) (w : World) bytes p ps :
  templatePdfBytes st = Some bytes ->
  pdf_parse lib bytes = Some (p :: ps) ->
  font_available lib Helvetica = true ->
  (forall d, is_Some (pdf_serialize lib d)) ->
  csvData st <> [] ->
  templateFields st <> [] ->
  Forall (fun row =>
            Forall (Drawable lib (page_width p) (page_height p) row)
              (templateFields st))
    (csvData st) ->
  alerts (generatePDFs lib st w).2 = alerts w /\
  length (downloads (generatePDFs lib st w).2)
    = length (downloads w) + length (csvData st).
Proof.
  intros Ht Hparse Hfont Hsave Hrows Hfields Hcells.
  assert (Hsilent : alerts (generatePDFs lib st w).2 = alerts w)
    by by eapply generatePDFs_silent_when_drawable.
  split; [done|].
  destruct (generatePDFs_outputs lib st w) as (outs & Hd & _ & Hlen).
  by rewrite Hd, length_app, (Hlen Hsilent).
Qed.

End Additions.

(** C2. Every text operation a run adds to the document of a row belongs
    to a field, in field order, carries the text of that field in that
    row, and sits at [x = (field.x / 100) * width],
    [y = height - (field.y / 100) * height], with [width] and [height]
    the size of the first page of the loaded template.  A run that shows
    no notice has a document for every row and an operation for every
    field on it, and the run shows no notice when the library accepts
    what it is given: the template parses to at least one page, the font
    can be embedded, every cell is a string the font encodes, no position
    is [NaN], and saving does not fail.  In doubles a field at
    [{x: 50, y: 50}] is drawn at [(0.5 * W, H - 0.5 * H)]; in exact
    arithmetic that is [(W / 2, H / 2)]. *)
Theorem fields_drawn_at_page_percentages :
  (forall (num : Type) (N : JsNumber num) (lib : PdfLib num)
          (st : State num) (w : World num),
     Drawn lib st w (fun p field op =>
       op_x op = ((TemplateField.x field /^ lit 100) *^ page_width p)%js /\
       op_y op = (page_height p
                  -^ (TemplateField.y field /^ lit 100) *^ page_height p)%js)) /\
  (forall (num : Type) (N : JsNumber num) (lib : PdfLib num)
          (st : State num) (w : World num) bytes p ps,
     templatePdfBytes st = Some bytes ->
     pdf_parse lib bytes = Some (p :: ps) ->
     font_available lib Helvetica = true ->
     (forall d, is_Some (pdf_serialize lib d)) ->
     csvData st <> [] ->
     templateFields st <> [] ->
     Forall (fun row =>
               Forall (Drawable lib (page_width p) (page_height p) row)
                 (templateFields st))
       (csvData st) ->
     alerts (generatePDFs lib st w).2 = alerts w) /\
  (forall (lib : PdfLib float) (st : State float) (w : World float),
     Drawn lib st w (fun p field op =>
       TemplateField.x field = 50%float -> TemplateField.y field = 50%float ->
       op_x op = (0.5 * page_width p)%float /\
       op_y op = (page_height p - 0.5 * page_height p)%float)) /\
  (forall (lib : PdfLib Q) (st : State Q) (w : World Q),
     Drawn lib st w (fun p field op =>
       (TemplateField.x field == 50)%Q -> (TemplateField.y field == 50)%Q ->
       (op_x op == (1 # 2) * page_width p)%Q /\
       (op_y op == (1 # 2) * page_height p)%Q)).
Proof.
  split; [|split; [|split]].
  - intros num N lib st w. exact (generatePDFs_draws lib st w).
  - intros num N lib st w bytes p ps.
    apply generatePDFs_silent_when_drawable.
  - intros lib st w.
    eapply Drawn_impl; [|exact (generatePDFs_draws lib st w)].
    intros p [x y name] op [-> ->]. simpl. by intros -> ->.
  - intros lib st w.
    eapply Drawn_impl; [|exact (generatePDFs_draws lib st w)].
    intros p [x y name] op [-> ->]. unfold drawX, drawY. simpl.
    intros -> ->. split; field.
Qed.

(** ** Sessions *)

Section Sessions.
Context {num : Type} {N : JsNumber num} (lib : PdfLib num).

Local Abbreviation World := (World num).
Local Abbreviation State := (State num).

(** No event makes a handler throw. *)
Lemma dispatch_returns (st : State) (ev : Event num) (w : World) :
  exists st' w', dispatch lib st ev w = (inr st', w').
Proof.
  destruct ev as [|files|results|event answer|]; simpl.
  - by eexists _, _.
  - destruct (dropzoneRendered st); [|by eexists _, _].
    unfold onDrop. destruct files as [|file rest]; [by eexists _, _|].
    unfold bind, createObjectURL, ret. destruct (isTemplateMode st); by eexists _, _.
  - destruct (isTemplateMode st); by eexists _, _.
  - by eexists _, _.
  - destruct (_ && _); [|by eexists _, _].
    destruct (generatePDFs_uniform lib st) as (docs & outs & notes & logs & Hrun & _).
    unfold bind. rewrite Hrun. by eexists _, _.
Qed.

(** What every event preserves, a session preserves. *)
Lemma session_invariant (P : State -> World -> Prop) :
  (forall st w ev st' w',
     P st w -> dispatch lib st ev w = (inr st', w') -> P st' w') ->
  forall evs st w,
    P st w -> exists st' w', session lib st evs w = (inr st', w') /\ P st' w'.
Proof.
  intros Hstep evs. induction evs as [|ev evs IH]; intros st w HP.
  - by exists st, w.
  - destruct (dispatch_returns st ev w) as (st1 & w1 & Hev).
    destruct (IH st1 w1 (Hstep _ _ _ _ _ HP Hev)) as (st' & w' & Hrest & HP').
    exists st', w'. split; [|done].
    simpl. unfold bind. by rewrite Hev.
Qed.

(** What an event can change of the state: the handlers of the Template
    Mode button, of the data file input and of a click keep the file
    shown and the template. *)
Lemma dispatch_keeps_file (st : State) (ev : Event num) (w : World) st' w' :
  pdfFile st <> None ->
  dispatch lib st ev w = (inr st', w') ->
  pdfFile st' = pdfFile st /\ templatePdfBytes st' = templatePdfBytes st.
Proof.
  intros Hfile.
  destruct ev as [|files|results|event answer|]; simpl.
  - by intros [= <- <-].
  - unfold dropzoneRendered. destruct (pdfFile st) eqn:Hshown; [|done].
    unfold ret. simpl. by intros [= <- <-].
  - destruct (isTemplateMode st); simpl; [|by intros [= <- <-]].
    intros [= <- <-]. by destruct results.
  - intros [= <- <-]. unfold clickPage, onClick.
    destruct (pdfFile st) eqn:Hshown; [|done].
    destruct (isTemplateMode st) eqn:Hmode; [|done].
    unfold handleTemplateFieldAdd. rewrite Hmode. simpl.
    destruct answer as [name|]; [|done]. by destruct (negb _).
  - destruct (_ && _); simpl; [|by intros [= <- <-]].
    unfold bind. destruct (generatePDFs lib st w) as [[e|[]] w1]; [done|].
    by intros [= <- <-].
Qed.

(** [onDrop] is [onDrop_start] with the pending read fulfilled at
    once. *)
Lemma onDrop_fulfilled_at_once (st : State) (acceptedFiles : list File) (w : World) :
  onDrop st acceptedFiles w =
    match onDrop_start st acceptedFiles w with
    | (inr (st', Some file), w') => (inr (onDrop_resume st' file), w')
    | (inr (st', None), w') => (inr st', w')
    | (inl e, w') => (inl e, w')
    end.
Proof.
  unfold onDrop, onDrop_start. destruct acceptedFiles as [|file rest]; [done|].
  unfold bind, createObjectURL, ret. by destruct (isTemplateMode st).
Qed.

(** No step makes a handler throw. *)
Lemma step_returns (run : State * list File) (s : Step num) (w : World) :
  exists run' w', step lib run s w = (inr run', w').
Proof.
  destruct s as [ev|i fulfilled]; simpl.
  - assert (Hev : exists run' w',
              bind (dispatch lib run.1 ev) (fun st' => ret (st', run.2)) w
                = (inr run', w')).
    { destruct (dispatch_returns run.1 ev w) as (st' & w' & Hev).
      unfold bind. rewrite Hev. by eexists _, _. }
    destruct ev as [|files|results|event answer|]; try exact Hev.
    destruct (dropzoneRendered run.1); [|by eexists _, _].
    unfold onDrop_start. destruct files as [|file rest]; [by eexists _, _|].
    unfold bind, createObjectURL, ret. destruct (isTemplateMode run.1); by eexists _, _.
  - destruct (run.2 !! i); by eexists _, _.
Qed.

(** What every step preserves, an interleaved session preserves. *)
Lemma interleaved_invariant (P : State * list File -> World -> Prop) :
  (forall run w s run' w',
     P run w -> step lib run s w = (inr run', w') -> P run' w') ->
  forall steps run w,
    P run w ->
    exists run' w', interleaved lib run steps w = (inr run', w') /\ P run' w'.
Proof.
  intros Hstep steps. induction steps as [|s steps IH]; intros run w HP.
  - by exists run, w.
  - destruct (step_returns run s w) as (run1 & w1 & Hs).
    destruct (IH run1 w1 (Hstep _ _ _ _ _ HP Hs)) as (run' & w' & Hrest & HP').
    exists run', w'. split; [|done].
    simpl. unfold bind. by rewrite Hs.
Qed.

(** Once a file is shown, a step keeps it, starts no read, and changes
    the stored template only by storing the bytes of a file whose read
    was pending. *)
Lemma step_keeps_file (run : State * list File) (s : Step num) (w : World) run' w' :
  pdfFile run.1 <> None ->
  step lib run s w = (inr run', w') ->
  pdfFile run'.1 = pdfFile run.1 /\
  run'.2 `sublist_of` run.2 /\
  (templatePdfBytes run'.1 = templatePdfBytes run.1 \/
   exists file, file ∈ run.2 /\ templatePdfBytes run'.1 = Some (file_bytes file)).
Proof.
  intros Hfile. destruct s as [ev|i fulfilled]; simpl.
  - assert (Hev :
      bind (dispatch lib run.1 ev) (fun st' => ret (st', run.2)) w = (inr run', w') ->
      pdfFile run'.1 = pdfFile run.1 /\
      run'.2 `sublist_of` run.2 /\
      (templatePdfBytes run'.1 = templatePdfBytes run.1 \/
       exists file, file ∈ run.2 /\ templatePdfBytes run'.1 = Some (file_bytes file))).
    { unfold bind. destruct (dispatch lib run.1 ev w) as [[e|st1] w1] eqn:Hd; [done|].
      intros [= <- <-]. simpl.
      destruct (dispatch_keeps_file _ _ _ _ _ Hfile Hd) as [Hf Ht].
      split; [done|]. split; [done|]. by left. }
    destruct ev as [|files|results|event answer|]; try exact Hev.
    unfold dropzoneRendered. destruct (pdfFile run.1) eqn:Hshown; [|done].
    intros [= <- <-]. split; [done|]. split; [done|]. by left.
  - destruct (run.2 !! i) as [file|] eqn:Hi.
    + intros [= <- <-]. simpl. split; [by destruct fulfilled|].
      split; [apply sublist_delete|].
      destruct fulfilled; [right|by left].
      exists file. split; [|done]. by eapply list_elem_of_lookup_2.
    + intros [= <- <-]. split; [done|]. split; [done|]. by left.
Qed.

(** X6. Once a file is shown, nothing the user does and no read that
    settles replaces it, and no further read is started: the dropzone is
    no longer rendered.  The stored template changes in one way only: a
    read that was pending when the file was already shown is fulfilled
    and the bytes of its file are stored.  With no read pending, the
    stored template stays as it is.  A pending read that is fulfilled
    does store the bytes of its file; one that is rejected stores
    nothing. *)
Theorem shown_file_is_final (st : State) (reading : list File) :
  pdfFile st <> None ->
  (forall (steps : list (Step num)) (w : World),
     exists st' reading' w',
       interleaved lib (st, reading) steps w = (inr (st', reading'), w') /\
       pdfFile st' = pdfFile st /\
       reading' `sublist_of` reading /\
       (templatePdfBytes st' = templatePdfBytes st \/
        exists file, file ∈ reading /\
          templatePdfBytes st' = Some (file_bytes file))) /\
  (forall i file (w : World),
     reading !! i = Some file ->
     interleaved lib (st, reading) [ReadSettled i true] w
       = (inr (setTemplatePdfBytes st (Some (file_bytes file)), delete i reading), w) /\
     interleaved lib (st, reading) [ReadSettled i false] w
       = (inr (st, delete i reading), w)).
Proof.
  intros Hfile. split.
  - intros steps w.
    destruct (interleaved_invariant
                (fun run _ =>
                   pdfFile run.1 = pdfFile st /\
                   run.2 `sublist_of` reading /\
                   (templatePdfBytes run.1 = templatePdfBytes st \/
                    exists file, file ∈ reading /\
                      templatePdfBytes run.1 = Some (file_bytes file))))
      with (steps := steps) (run := (st, reading)) (w := w)
      as ([st' reading'] & w' & Hrun & HP).
    + intros run1 w1 s run2 w2 (Hf & Hsub & Ht) Hs.
      destruct (step_keeps_file run1 s w1 run2 w2) as (Hf' & Hsub' & Ht');
        [congruence|done|].
      split; [congruence|]. split; [by etrans|].
      destruct Ht' as [Ht'|(file & Hin & Ht')].
      * by rewrite Ht'.
      * right. exists file. split; [|done]. by eapply elem_of_sublist.
    + split; [done|]. split; [done|]. by left.
    + by exists st', reading', w'.
  - intros i file w Hi. simpl. unfold bind, ret. simpl. by rewrite Hi.
Qed.

(** Without a stored template an event leaves the world as it is, once a
    file is shown: the dropzone is gone and the Generate button is
    disabled. *)
Lemma dispatch_without_template (st : State) (ev : Event num) (w : World) st' w' :
  pdfFile st <> None ->
  templatePdfBytes st = None ->
  dispatch lib st ev w = (inr st', w') ->
  w' = w.
Proof.
  intros Hfile Ht.
  destruct ev as [|files|results|event answer|]; simpl.
  - by intros [= _ <-].
  - unfold dropzoneRendered. destruct (pdfFile st); [|done]. by intros [= _ <-].
  - destruct (isTemplateMode st); by intros [= _ <-].
  - by intros [= _ <-].
  - unfold generateDisabled. rewrite Ht. simpl. rewrite andb_false_r.
    by intros [= _ <-].
Qed.

(** X7. A file dropped outside template mode is shown but not stored as
    the template, and nothing the user does afterwards is ever stamped:
    whatever events follow, no document is loaded, nothing is downloaded
    and no notice is shown. *)
Theorem file_dropped_outside_template_mode_is_never_stamped (st : State)
  (file : File) (rest : list File) (evs : list (Event num)) (w : World) :
  isTemplateMode st = false ->
  pdfFile st = None ->
  templatePdfBytes st = None ->
  exists st',
    session lib st (DropFiles (file :: rest) :: evs) w
      = (inr st', setBlobs w (blobs w ++ [Some (file_bytes file)])) /\
    templatePdfBytes st' = None.
Proof.
  intros Hmode Hfile Ht.
  set (st1 := setPdfFile st (Some (length (blobs w)))).
  set (w1 := setBlobs w (blobs w ++ [Some (file_bytes file)])).
  assert (Hdrop : dispatch lib st (DropFiles (file :: rest)) w = (inr st1, w1)).
  { simpl. unfold dropzoneRendered. rewrite Hfile. simpl.
    unfold bind, createObjectURL. by rewrite Hmode. }
  destruct (session_invariant
              (fun st' w' => pdfFile st' <> None /\
                             templatePdfBytes st' = None /\ w' = w1)
              ) with (evs := evs) (st := st1) (w := w1)
    as (st' & w' & Hrest & _ & Ht' & ->).
  - intros st2 w2 ev st3 w3 (Hf & Ht2 & ->) Hev.
    destruct (dispatch_keeps_file st2 ev w1 st3 w3 Hf Hev) as [Hf3 Ht3].
    split; [congruence|]. split; [congruence|].
    by eapply dispatch_without_template.
  - done.
  - exists st'. split; [|done].
    change (session lib st (DropFiles (file :: rest) :: evs) w)
      with (bind (dispatch lib st (DropFiles (file :: rest)))
              (fun st' => session lib st' evs) w).
    unfold bind. by rewrite Hdrop.
Qed.

(** An event keeps the file shown behind a live object URL, holding the
    template when one is stored. *)
Lemma dispatch_Shown (st : State) (ev : Event num) (w : World) st' w' :
  Shown st w ->
  dispatch lib st ev w = (inr st', w') ->
  Shown st' w'.
Proof.
  intros Hshown.
  destruct ev as [|files|results|event answer|]; simpl.
  - by intros [= <- <-].
  - unfold dropzoneRendered, Shown in *.
    destruct (pdfFile st) eqn:Hfile; simpl.
    { intros [= <- <-]. by rewrite Hfile. }
    unfold onDrop. destruct files as [|file rest].
    { intros [= <- <-]. by rewrite Hfile. }
    unfold bind, createObjectURL, ret.
    destruct (isTemplateMode st); intros [= <- <-]; simpl;
      exists (file_bytes file); (split; [by rewrite lookup_last|]).
    + by intros bytes [= <-].
    + intros bytes Hb. congruence.
  - destruct (isTemplateMode st); intros [= <- <-]; [|done].
    by destruct results.
  - intros [= <- <-]. unfold clickPage, onClick.
    destruct (pdfFile st) eqn:Hfile; [|done].
    destruct (isTemplateMode st) eqn:Hmode; [|done].
    unfold handleTemplateFieldAdd. rewrite Hmode. simpl.
    destruct answer as [name|]; [|done].
    destruct (negb _); [|done]. unfold Shown in *. simpl. exact Hshown.
  - destruct (_ && _); simpl; [|by intros [= <- <-]].
    destruct (generatePDFs_uniform lib st) as (docs & outs & notes & logs & Hrun & _).
    unfold bind. rewrite Hrun. intros [= <- <-].
    unfold Shown in *. destruct (pdfFile st); [|done].
    destruct Hshown as (content & Hlive & Ht). exists content. split; [|done].
    simpl. by apply lookup_app_l_Some.
Qed.

(** X8. Throughout a session the file shown stays behind a live object
    URL: no run of [generatePDFs] revokes it.  When a template is stored,
    it is the file shown, and no template is stored while no file is
    shown. *)
Theorem shown_file_is_live_and_is_the_template (evs : list (Event num)) (w : World) :
  exists st' w',
    session lib initialState evs w = (inr st', w') /\
    match pdfFile st' with
    | Some url =>
        exists content,
          blobs w' !! url = Some (Some content) /\
          forall bytes, templatePdfBytes st' = Some bytes -> bytes = content
    | None => templatePdfBytes st' = None
    end.
Proof.
  apply (session_invariant Shown); [|done].
  intros st1 w1 ev st2 w2. apply dispatch_Shown.
Qed.

(** An event shows at most one notice, and then the failure notice. *)
Lemma dispatch_alerts (st : State) (ev : Event num) (w : World) st' w' :
  dispatch lib st ev w = (inr st', w') ->
  alerts w' = alerts w \/ alerts w' = alerts w ++ [failureNotice].
Proof.
  destruct ev as [|files|results|event answer|]; simpl.
  - intros [= _ <-]. by left.
  - destruct (dropzoneRendered st); [|intros [= _ <-]; by left].
    unfold onDrop. destruct files as [|file rest]; [intros [= _ <-]; by left|].
    unfold bind, createObjectURL, ret.
    destruct (isTemplateMode st); intros [= _ <-]; by left.
  - destruct (isTemplateMode st); intros [= _ <-]; by left.
  - intros [= _ <-]. by left.
  - destruct (isTemplateMode st); simpl; [|intros [= _ <-]; by left].
    destruct (generateDisabled st) eqn:Hdis; simpl; [intros [= _ <-]; by left|].
    destruct (generatePDFs_uniform lib st)
      as (docs & outs & notes & logs & Hrun & Hnotes & _).
    unfold bind. rewrite Hrun. intros [= _ <-]. simpl.
    destruct (Hnotes Hdis) as [-> | ->]; [left|right]; by rewrite ?app_nil_r.
Qed.

(** X9. Whatever the user does, the precondition notice is never shown:
    the Generate button is disabled exactly when [generatePDFs] would
    show it.  Every notice of a session is the failure notice. *)
Theorem session_never_shows_the_precondition_notice (st : State)
  (evs : list (Event num)) (w : World) :
  exists st' w' notes,
    session lib st evs w = (inr st', w') /\
    alerts w' = alerts w ++ notes /\
    Forall (fun notice => notice = failureNotice) notes.
Proof.
  destruct (session_invariant
              (fun _ w' => exists notes,
                 alerts w' = alerts w ++ notes /\
                 Forall (fun notice => notice = failureNotice) notes))
    with (evs := evs) (st := st) (w := w) as (st' & w' & Hrun & notes & Ha & Hn).
  - intros st1 w1 ev st2 w2 (notes & Ha & Hn) Hev.
    destruct (dispatch_alerts _ _ _ _ _ Hev) as [Ha' | Ha'].
    + exists notes. by rewrite Ha'.
    + exists (notes ++ [failureNotice]). rewrite Ha', Ha, app_assoc.
      split; [done|]. apply Forall_app. split; [done|]. by constructor.
  - exists []. by rewrite app_nil_r.
  - by exists st', w', notes.
Qed.



End Sessions.

(** ** From the click to the page *)

(** X11. From the click to the page.  One turn of the inner loop on a
    field placed by a click, when it ends normally, has appended one text
    operation whose position is computed from the click as
    [x = ((((clientX - left) / width) * 100) / 100) * W] and
    [y = H - ((((clientY - top) / height) * 100) / 100) * H], in the
    arithmetic of the program.  Read in exact arithmetic, the text
    starts at the fraction of the page width the click was at in the
    box, and as far below the top of the page as the click was below the
    top of the box in proportion: the flip of [y] undoes the top-left
    origin of the click. *)
Theorem click_is_drawn_in_proportion :
  (forall (num : Type) (N : JsNumber num) (lib : PdfLib num) (st : State num)
          (event : MouseEvent num) (name : string) (W H : num)
          (row : Js.Object) h d (w w' : World num),
     isTemplateMode st = true -> name <> "" ->
     heap w = h ++ [d] ->
     let box := boundingClientRect event in
     exists f,
       templateFields (handleTemplateFieldAdd st event (Some name))
         = templateFields st ++ [f] /\
       (stampField lib (length h) (Some (length h, 0)) W H row f w = (inr tt, w') ->
        exists op,
          heap w' = h ++ [stampDoc [op] 1 d] /\
          op_x op = (((((clientX event -^ left box) /^ width box) *^ lit 100)
                      /^ lit 100) *^ W)%js /\
          op_y op = (H -^ ((((clientY event -^ top box) /^ height box) *^ lit 100)
                           /^ lit 100) *^ H)%js)) /\
  (forall (lib : PdfLib Q) (st : State Q) (event : MouseEvent Q) (name : string)
          (W H : Q) (row : Js.Object) h d (w w' : World Q),
     isTemplateMode st = true -> name <> "" ->
     heap w = h ++ [d] ->
     let box := boundingClientRect event in
     exists f,
       templateFields (handleTemplateFieldAdd st event (Some name))
         = templateFields st ++ [f] /\
       (stampField lib (length h) (Some (length h, 0)) W H row f w = (inr tt, w') ->
        exists op,
          heap w' = h ++ [stampDoc [op] 1 d] /\
          (op_x op == (clientX event - left box) / width box * W)%Q /\
          (H - op_y op == (clientY event - top box) / height box * H)%Q)).
Proof.
  assert (Hgen : forall (num : Type) (N : JsNumber num) (lib : PdfLib num)
            (st : State num) (event : MouseEvent num) (name : string) (W H : num)
            (row : Js.Object) h d (w w' : World num),
     isTemplateMode st = true -> name <> "" ->
     heap w = h ++ [d] ->
     let box := boundingClientRect event in
     exists f,
       templateFields (handleTemplateFieldAdd st event (Some name))
         = templateFields st ++ [f] /\
       (stampField lib (length h) (Some (length h, 0)) W H row f w = (inr tt, w') ->
        exists op,
          heap w' = h ++ [stampDoc [op] 1 d] /\
          op_x op = (((((clientX event -^ left box) /^ width box) *^ lit 100)
                      /^ lit 100) *^ W)%js /\
          op_y op = (H -^ ((((clientY event -^ top box) /^ height box) *^ lit 100)
                           /^ lit 100) *^ H)%js)).
  { intros num N lib st event name W H row h d w w' Hmode Hname Hh box.
    unfold handleTemplateFieldAdd. rewrite Hmode. simpl.
    destruct (String.eqb_spec name "") as [|_]; [done|]. simpl.
    eexists. split; [done|]. intros Hrun.
    destruct (stampField_run lib h d w W H row _ _ _ Hh Hrun)
      as (_ & op & Hop & Hh').
    exists op. split; [done|]. unfold fieldOp in Hop.
    destruct (fieldText row _); try done. by injection Hop as <-. }
  split; [exact Hgen|].
  intros lib st event name W H row h d w w' Hmode Hname Hh box.
  destruct (Hgen Q rational lib st event name W H row h d w w' Hmode Hname Hh)
    as (f & Hf & Hdraw).
  exists f. split; [done|]. intros Hrun.
  destruct (Hdraw Hrun) as (op & Hh' & Hx & Hy). exists op. split; [done|].
  rewrite Hx, Hy. fold box. simpl.
  assert (Hscale : forall a b c : Q, (a / b * 100 / 100 * c == a / b * c)%Q).
  { intros a b c. generalize (a / b)%Q. intros q. field. }
  split; [apply Hscale|]. rewrite Hscale. ring.
Qed.

(** The sample click, 50px into a box 200px wide and 200px into one
    400px high, on a Letter page, in doubles: the text is drawn a quarter
    of the width from the left edge and half the height from the top. *)
Example click_is_drawn_on_letter :
  let st := handleTemplateFieldAdd
              (setTemplateFields Sample.session (fun _ => []))
              Sample.pointer (Some "name") in
  map (fun d => map (fun p => map (fun op => (op_text op, op_x op, op_y op))
                                (page_content p)) (doc_pages d))
    (heap (generatePDFs Sample.lib st Sample.world).2)
  = [[[]]; [[("Alice", 153%float, 396%float)]]; [[("Bob", 153%float, 396%float)]]].
Proof. reflexivity. Qed.

(** X13. A field placed by a click strictly inside the box is never
    rejected for its position: on a page of finite size the two numbers
    the inner loop passes to [drawText] for it are not [NaN], so with a
    font that can be embedded and a cell that is a string the font
    encodes, the turn of the loop for that field ends normally. *)
Theorem clicked_field_is_drawn (lib : PdfLib float) (st : State float)
  (event : MouseEvent float) (name : string) (W H : float) (row : Js.Object)
  h d (w : World float) :
  isTemplateMode st = true -> name <> "" ->
  let box := boundingClientRect event in
  is_finite (clientX event) = true -> is_finite (clientY event) = true ->
  is_finite (left box) = true -> is_finite (top box) = true ->
  is_finite (width box) = true -> is_finite (height box) = true ->
  (Binary64.F2Q (left box) < Binary64.F2Q (clientX event)
   < Binary64.F2Q (left box) + Binary64.F2Q (width box))%Q ->
  (Binary64.F2Q (top box) < Binary64.F2Q (clientY event)
   < Binary64.F2Q (top box) + Binary64.F2Q (height box))%Q ->
  is_finite W = true -> is_finite H = true ->
  font_available lib Helvetica = true ->
  heap w = h ++ [d] ->
  exists f,
    templateFields (handleTemplateFieldAdd st event (Some name))
      = templateFields st ++ [f] /\
    isNaN ((TemplateField.x f /^ lit 100) *^ W)%js = false /\
    isNaN (H -^ (TemplateField.y f /^ lit 100) *^ H)%js = false /\
    forall s,
      fieldText row f = Js.JString s ->
      forallb (font_encodes lib) (list_ascii_of_string s) = true ->
      exists w',
        stampField lib (length h) (Some (length h, 0)) W H row f w = (inr tt, w').
Proof.
  intros Hmode Hname box Hcx Hcy Hl Ht Hw Hh [Hx1 Hx2] [Hy1 Hy2] HW HH Hfont Hheap.
  unfold handleTemplateFieldAdd. rewrite Hmode. simpl.
  destruct (String.eqb_spec name "") as [|_]; [done|]. simpl.
  eexists. split; [done|]. simpl. fold box.
  pose proof (Rounding.percentage_below (clientX event) (left box) (width box)
                Hcx Hl Hw Hx1 Hx2) as Hx.
  pose proof (Rounding.percentage_below (clientY event) (top box) (height box)
                Hcy Ht Hh Hy1 Hy2) as Hy.
  destruct (Rounding.scaled_percentage_not_nan _ W Hx HW) as [HxW _].
  destruct (Rounding.scaled_percentage_not_nan _ H Hy HH) as [_ HyH].
  split; [exact HxW|]. split; [exact HyH|].
  intros s Htext Henc.
  edestruct (stampField_draws lib h d w W H row) as [s' Hrun];
    [|exact Hfont|exact Hheap|eexists; exact Hrun].
  split; [by exists s|]. split; [exact HxW|exact HyH].
Qed.

(** The sample click on a Letter page: the field is drawn for a row that
    has its column. *)
Lemma clicked_field_is_drawn_witness :
  let w := setHeap Sample.world [freshDoc [Sample.letter]] in
  exists f,
    templateFields (handleTemplateFieldAdd Sample.session Sample.pointer (Some "name"))
      = [Sample.field 10 10 "name"; f] /\
    is_nan (TemplateField.x f / 100 * 612)%float = false /\
    is_nan (792 - TemplateField.y f / 100 * 792)%float = false /\
    forall s,
      fieldText [("name", Js.JString "Alice")] f = Js.JString s ->
      forallb (font_encodes Sample.lib) (list_ascii_of_string s) = true ->
      exists w',
        stampField Sample.lib 0 (Some (0, 0)) 612%float 792%float
          [("name", Js.JString "Alice")] f w = (inr tt, w').
Proof.
  apply (clicked_field_is_drawn Sample.lib Sample.session Sample.pointer "name"
           612%float 792%float [("name", Js.JString "Alice")] []
           (freshDoc [Sample.letter])
           (setHeap Sample.world [freshDoc [Sample.letter]]));
    try reflexivity; try discriminate; split; vm_compute; reflexivity.
Defined.

(** Outside the range of the property above: a click on a box of width
    0 stores [NaN] as the field's [x], [drawText] rejects the position,
    and the batch aborts at the first row. *)
Example zero_width_box_stores_NaN :
  let click : MouseEvent float :=
    {| clientX := 100%float; clientY := 300%float;
       boundingClientRect :=
         {| left := 100%float; top := 100%float;
            width := 0%float; height := 400%float |} |} in
  let st := handleTemplateFieldAdd
              (setTemplateFields Sample.session (fun _ => [])) click (Some "name") in
  map (fun f => is_nan (TemplateField.x f)) (templateFields st) = [true] /\
  console (generatePDFs Sample.lib st Sample.world).2
    = [("Error generating PDFs:", TypeError "options.x must be of type number")] /\
  alerts (generatePDFs Sample.lib st Sample.world).2 = [failureNotice] /\
  downloads (generatePDFs Sample.lib st Sample.world).2 = [].
Proof. repeat split. Qed.

(** ** Sample runs of the properties above *)

Lemma fields_drawn_at_page_percentages_witness :
  alerts (generatePDFs Sample.lib Sample.session Sample.world).2 = [] /\
  Drawn Sample.lib Sample.session Sample.world (fun p field op =>
    op_x op = (TemplateField.x field / 100 * page_width p)%float /\
    op_y op = (page_height p - TemplateField.y field / 100 * page_height p)%float).
Proof.
  split.
  - apply (proj1 (proj2 fields_drawn_at_page_percentages) float binary64 Sample.lib
             Sample.session Sample.world Sample.template Sample.letter []).
    + reflexivity.
    + reflexivity.
    + reflexivity.
    + intros d. eexists. reflexivity.
    + discriminate.
    + discriminate.
    + repeat constructor.
      * exists "Alice". split; reflexivity.
      * exists "Bob". split; reflexivity.
  - apply (proj1 fields_drawn_at_page_percentages float binary64 Sample.lib
             Sample.session Sample.world).
Defined.

Lemma click_is_drawn_in_proportion_witness :
  let w := setHeap Sample.world [freshDoc [Sample.letter]] in
  let row := [("email", Js.JString "a@b.c")] in
  exists op,
    heap (stampField Sample.lib 0 (Some (0, 0)) 612%float 792%float row
            (Sample.field 25 50 "email") w).2
      = [stampDoc [op] 1 (freshDoc [Sample.letter])] /\
    op_x op = 153%float /\ op_y op = 396%float.
Proof.
  intros w row.
  destruct (proj1 click_is_drawn_in_proportion float binary64 Sample.lib
              Sample.session Sample.pointer "email" 612%float 792%float row
              [] (freshDoc [Sample.letter]) w
              (stampField Sample.lib 0 (Some (0, 0)) 612%float 792%float row
                 (Sample.field 25 50 "email") w).2)
    as (f & Hf & Hdraw); [reflexivity|discriminate|reflexivity|].
  injection Hf as <-.
  destruct (Hdraw eq_refl) as (op & Hh & Hx & Hy).
  exists op. split; [exact Hh|]. split; [exact Hx|exact Hy].
Defined.

Lemma silent_run_downloads_one_file_per_row_witness :
  exists outs,
    downloads (generatePDFs Sample.lib Sample.session Sample.world).2 = outs /\
    map fst outs = ["generated_Alice.pdf"; "generated_Bob.pdf"].
Proof.
  destruct (silent_run_downloads_one_file_per_row Sample.lib Sample.session
              Sample.world) as (outs & Hd & Hn & _); [reflexivity|].
  exists outs. split; [exact Hd|exact Hn].
Defined.

Lemma generatePDFs_succeeds_witness :
  alerts (generatePDFs Sample.lib Sample.session Sample.world).2 = [] /\
  length (downloads (generatePDFs Sample.lib Sample.session Sample.world).2) = 2.
Proof.
  apply (generatePDFs_succeeds Sample.lib Sample.session Sample.world
           Sample.template Sample.letter []).
  - reflexivity.
  - reflexivity.
  - reflexivity.
  - intros d. eexists. reflexivity.
  - discriminate.
  - discriminate.
  - repeat constructor.
    + exists "Alice". split; reflexivity.
    + exists "Bob". split; reflexivity.
Defined.

Lemma shown_file_is_final_witness :
  let file := {| file_name := "template.pdf"; file_bytes := Sample.template |} in
  let pending := setTemplatePdfBytes Sample.session None in
  (exists st' reading' w',
     interleaved Sample.lib (pending, [file])
       [User ClickGenerate;
        User (DropFiles [{| file_name := "other.pdf"; file_bytes := [] |}]);
        ReadSettled 0 true;
        User ClickGenerate] Sample.world = (inr (st', reading'), w') /\
     pdfFile st' = Some 0 /\
     reading' `sublist_of` [file] /\
     (templatePdfBytes st' = None \/
      exists f, f ∈ [file] /\ templatePdfBytes st' = Some (file_bytes f))) /\
  interleaved Sample.lib (pending, [file]) [ReadSettled 0 true] Sample.world
    = (inr (Sample.session, []), Sample.world).
Proof.
  split.
  - apply (proj1 (shown_file_is_final Sample.lib
                    (setTemplatePdfBytes Sample.session None)
                    [{| file_name := "template.pdf"; file_bytes := Sample.template |}]
                    ltac:(discriminate))).
  - exact (proj1 (proj2 (shown_file_is_final Sample.lib
                           (setTemplatePdfBytes Sample.session None)
                           [{| file_name := "template.pdf";
                               file_bytes := Sample.template |}]
                           ltac:(discriminate))
                    0%nat {| file_name := "template.pdf"; file_bytes := Sample.template |}
                    Sample.world eq_refl)).
Defined.

(** The same steps, run: the first click on Generate finds the button
    disabled, the read then stores the template, and the second click
    downloads the two files. *)
Example pending_read_then_generate :
  let file := {| file_name := "template.pdf"; file_bytes := Sample.template |} in
  let pending := setTemplatePdfBytes Sample.session None in
  match interleaved Sample.lib (pending, [file])
          [User ClickGenerate;
           User (DropFiles [{| file_name := "other.pdf"; file_bytes := [] |}]);
           ReadSettled 0 true;
           User ClickGenerate] Sample.world with
  | (inr (st', reading'), w') =>
      templatePdfBytes st' = Some Sample.template /\ reading' = [] /\
      map fst (downloads w') = ["generated_Alice.pdf"; "generated_Bob.pdf"]
  | (inl _, _) => False
  end.
Proof. repeat split. Qed.

Lemma file_dropped_outside_template_mode_is_never_stamped_witness :
  exists st',
    session Sample.lib initialState
      [DropFiles [{| file_name := "template.pdf"; file_bytes := Sample.template |}];
       ToggleTemplateMode;
       ChooseCsv (Some [[("name", Js.JString "Alice")]]);
       ClickViewer Sample.pointer (Some "name");
       ClickGenerate] Sample.world
      = (inr st', setBlobs Sample.world [Some Sample.template]) /\
    templatePdfBytes st' = None.
Proof.
  apply (file_dropped_outside_template_mode_is_never_stamped Sample.lib
           initialState); reflexivity.
Defined.
